(** * Aura Emotion Engine: the recommendation core of [spotify_player.py]
      and the emotion aggregator of [interface.py]

    The Python code is embedded shallowly.  Responses of the streaming
    service are untyped JSON-like Python values ([Py.value]); every operation
    the source applies to them ([.get], subscripting, iteration, truthiness,
    [in], comparison with a float) is modelled with the exception Python
    raises on a value of the wrong shape.  The external world (the service
    behind [self.sp], the random generator, standard output) is a trace of
    events; the service answers each call as an arbitrary function of the
    whole history, so a statement quantified over all worlds covers every
    behaviour of the collaborators. *)

From Stdlib Require Import String Ascii DecimalString Bool Arith Lia PrimFloat List.
Import ListNotations.

Set Warnings "-inexact-float,-register-all".
Open Scope string_scope.
Open Scope list_scope.
Open Scope bool_scope.

(* ================================================================== *)
(** ** The fragment of Python the source uses *)
(* ================================================================== *)

Module Py.

(** Exceptions.  Only subclasses of [Exception] are modelled: they are what a
    failing service call or a malformed response raises, and both the bare
    [except:] handlers and the [except Exception] handler of the source catch
    all of them.  [ServiceError n] stands for any error of the client library
    (authentication, network, HTTP status, ...). *)
Inductive exn : Type :=
| TypeError
| KeyError
| IndexError
| AttributeError
| NameError
| ServiceError (code : nat).

(** The outcome of evaluating an expression. *)
Inductive result (A : Type) : Type :=
| Ret (a : A)
| Raise (e : exn).
Arguments Ret {A} a.
Arguments Raise {A} e.

Definition bindR {A B : Type} (r : result A) (k : A -> result B) : result B :=
  match r with
  | Ret a => k a
  | Raise e => Raise e
  end.

(** Python values as [json] decoding produces them.  Numbers are binary64
    floats (an integral JSON number is the float of the same value); a
    [VDict] lists the items of the dict in insertion order, its keys are
    strings. *)
Inductive value : Type :=
| VNone
| VBool (b : bool)
| VNum (x : float)
| VStr (s : string)
| VList (l : list value)
| VDict (d : list (string * value)).

(** [bool(v)]: what [if v], [not v] and [or] test. *)
Definition truthy (v : value) : bool :=
  match v with
  | VNone => false
  | VBool b => b
  | VNum x => negb (PrimFloat.eqb x 0%float)
  | VStr s => negb (String.eqb s "")
  | VList l => match l with [] => false | _ :: _ => true end
  | VDict d => match d with [] => false | _ :: _ => true end
  end.

(** Lookup of a key among the items of a dict. *)
Fixpoint lookup {A : Type} (key : string) (d : list (string * A)) : option A :=
  match d with
  | [] => None
  | (k, v) :: d' => if String.eqb k key then Some v else lookup key d'
  end.

(** [v.get(key, default)]: only a dict has the method. *)
Definition get (v : value) (key : string) (default : value) : result value :=
  match v with
  | VDict d => match lookup key d with
               | Some x => Ret x
               | None => Ret default
               end
  | _ => Raise AttributeError
  end.

(** [v[key]] with a string key. *)
Definition getitem (v : value) (key : string) : result value :=
  match v with
  | VDict d => match lookup key d with
               | Some x => Ret x
               | None => Raise KeyError
               end
  | _ => Raise TypeError
  end.

(** The one-character strings of a string, in order. *)
Fixpoint chars (s : string) : list value :=
  match s with
  | EmptyString => []
  | String c s' => VStr (String c EmptyString) :: chars s'
  end.

(** [v[0]]. *)
Definition getitem0 (v : value) : result value :=
  match v with
  | VList l => match l with
               | x :: _ => Ret x
               | [] => Raise IndexError
               end
  | VStr s => match chars s with
              | x :: _ => Ret x
              | [] => Raise IndexError
              end
  | VDict _ => Raise KeyError
  | _ => Raise TypeError
  end.

(** The elements [for x in v] visits: the elements of a list, the keys of a
    dict, the characters of a string. *)
Definition iter (v : value) : result (list value) :=
  match v with
  | VList l => Ret l
  | VDict d => Ret (map (fun kv => VStr (fst kv)) d)
  | VStr s => Ret (chars s)
  | _ => Raise TypeError
  end.

(** [sub in s] on strings. *)
Fixpoint is_substring (sub s : string) : bool :=
  String.prefix sub s ||
  match s with
  | EmptyString => false
  | String _ s' => is_substring sub s'
  end.

(** [key in v] for a string [key]: a key of a dict, an element of a list
    equal to [key], a substring of a string. *)
Definition contains (v : value) (key : string) : result bool :=
  match v with
  | VDict d => Ret (match lookup key d with Some _ => true | None => false end)
  | VList l => Ret (existsb (fun x => match x with
                                      | VStr s => String.eqb s key
                                      | _ => false
                                      end) l)
  | VStr s => Ret (is_substring key s)
  | _ => Raise TypeError
  end.

(** [low <= v <= high] for floats [low] and [high]: defined on numbers and on
    booleans (which are the integers 0 and 1). *)
Definition between (low : float) (v : value) (high : float) : result bool :=
  match v with
  | VNum x => Ret (PrimFloat.leb low x && PrimFloat.leb x high)
  | VBool b => let x := if b then 1%float else 0%float in
               Ret (PrimFloat.leb low x && PrimFloat.leb x high)
  | _ => Raise TypeError
  end.

(** [[f(x) for x in l]], stopping at the first exception. *)
Fixpoint mapR {A B : Type} (f : A -> result B) (l : list A) : result (list B) :=
  match l with
  | [] => Ret []
  | x :: l' => bindR (f x) (fun y => bindR (mapR f l') (fun ys => Ret (y :: ys)))
  end.

(** [str.lower] and [str.upper] on the ASCII letters; other characters are
    left as they are.  Python also maps the cased letters outside ASCII, so
    the two functions are those of Python on ASCII strings only: a statement
    that compares cases is made for ASCII strings. *)
Definition lower_ascii (c : ascii) : ascii :=
  let n := nat_of_ascii c in
  if ((65 <=? n) && (n <=? 90))%nat then ascii_of_nat (n + 32) else c.

Definition upper_ascii (c : ascii) : ascii :=
  let n := nat_of_ascii c in
  if ((97 <=? n) && (n <=? 122))%nat then ascii_of_nat (n - 32) else c.

Fixpoint map_string (f : ascii -> ascii) (s : string) : string :=
  match s with
  | EmptyString => EmptyString
  | String c s' => String (f c) (map_string f s')
  end.

Definition lower : string -> string := map_string lower_ascii.
Definition upper : string -> string := map_string upper_ascii.

End Py.

Import Py.

Declare Scope result_scope.
Delimit Scope result_scope with result.
Notation "x <- r ;; k" := (bindR r (fun x => k))
  (at level 61, r at next level, right associativity) : result_scope.

(* ================================================================== *)
(** ** The external world: service calls, random draws, printed lines *)
(* ================================================================== *)

Module World.

(** The methods of the streaming client [self.sp] the source calls, with the
    arguments it passes. *)
Inductive call : Type :=
| devices
| transfer_playback (device_id : value)
| start_playback (device_id : value) (uris : list value)
| current_user_top_artists (limit : nat)
| current_user_top_tracks (limit : nat)
| recommendations (seed_genres : list string)
                  (seed_artists seed_tracks : option (list value))
                  (limit : nat) (targets : list (string * float))
| current_user_playlists
| playlist_tracks (playlist_id : value) (limit : nat)
| audio_features (tracks : list value)
| search (q : string) (type_ : string) (limit : nat)
| pause_playback
| next_track.

(** The lines the player prints. *)
Inductive line : Type :=
| NoDeviceFound
| Layer1
| Layer2
| Layer3
| NoTracksFound
| NowPlaying (emotion : string) (count : nat)
| PlaybackFailed (e : exn).

(** What is recorded: a service call, a draw of the random generator, a
    printed line. *)
Inductive event : Type :=
| Call (c : call)
| Random
| Print (l : line).

Definition history : Type := list event.

(** A world answers a service call, and draws a random number, as a function
    of everything that happened before. *)
Record world : Type := {
  service : history -> call -> result value;
  randbelow : history -> nat -> nat
}.

(** Computations: they read and extend the history and may raise. *)
Definition M (A : Type) : Type := history -> result A * history.

Definition ret {A : Type} (a : A) : M A := fun h => (Ret a, h).

Definition raise {A : Type} (e : exn) : M A := fun h => (Raise e, h).

Definition bind {A B : Type} (m : M A) (k : A -> M B) : M B :=
  fun h => match m h with
           | (Ret a, h') => k a h'
           | (Raise e, h') => (Raise e, h')
           end.

(** An expression without effect. *)
Definition lift {A : Type} (r : result A) : M A := fun h => (r, h).

(** [try: m  except ...: handler]. *)
Definition try_except {A : Type} (m : M A) (handler : exn -> M A) : M A :=
  fun h => match m h with
           | (Ret a, h') => (Ret a, h')
           | (Raise e, h') => handler e h'
           end.

(** [self.sp.<method>(...)]: the world answers, the call is recorded. *)
Definition sp (w : world) (c : call) : M value :=
  fun h => (service w h c, h ++ [Call c]).

(** [print(...)]: writing a line to standard output succeeds. *)
Definition print (l : line) : M unit :=
  fun h => (Ret tt, h ++ [Print l]).

(** [random.choice(seq)]: [seq[randbelow(len(seq))]], [IndexError] on an
    empty sequence. *)
Definition random_choice (w : world) (seq : list string) : M string :=
  match seq with
  | [] => raise IndexError
  | x :: _ => fun h => (Ret (nth (randbelow w h (length seq) mod length seq) seq x),
                        h ++ [Random])
  end.

(** A [for] loop that updates an accumulator. *)
Fixpoint for_each {A B : Type} (l : list A) (acc : B) (body : B -> A -> M B) : M B :=
  match l with
  | [] => ret acc
  | x :: l' => bind (body acc x) (fun acc' => for_each l' acc' body)
  end.

End World.

Import World.

Declare Scope action_scope.
Delimit Scope action_scope with action.
Notation "x <- m ;; k" := (bind m (fun x => k))
  (at level 61, m at next level, right associativity) : action_scope.
Notation "m ;; k" := (bind m (fun _ => k))
  (at level 61, right associativity) : action_scope.
Notation "'try' m 'except' h" := (try_except m h)
  (at level 10, m at level 200, h at level 200) : action_scope.

(* ================================================================== *)
(** ** [class SpotifyPlayer] *)
(* ================================================================== *)

Module SpotifyPlayer.

Definition EMOTION_GENRES : list (string * list string) :=
  [ ("happy", ["pop"; "dance"; "latin"]);
    ("sad", ["acoustic"; "classical"; "blues"]);
    ("angry", ["rock"; "metal"; "punk"]);
    ("surprise", ["electronic"; "house"; "edm"]);
    ("disgust", ["soul"; "r&b"; "blues"]);
    ("fear", ["ambient"; "soundtracks"; "darkwave"]);
    ("neutral", ["indie"; "chill"; "lofi"]) ].

(** RANGES -> (min, max).  The integer bounds of tempo are the floats of the
    same value, as Python compares and averages them. *)
Definition EMOTION_TARGETS : list (string * list (string * (float * float))) :=
  [ ("happy", [("valence", (0.7, 1.0)); ("energy", (0.6, 1.0)); ("danceability", (0.5, 1.0))]);
    ("sad", [("valence", (0.0, 0.3)); ("energy", (0.0, 0.3)); ("acousticness", (0.4, 1.0))]);
    ("angry", [("valence", (0.1, 0.4)); ("energy", (0.6, 1.0)); ("tempo", (90, 150))]);
    ("surprise", [("valence", (0.5, 0.8)); ("energy", (0.6, 0.9)); ("danceability", (0.5, 0.8))]);
    ("disgust", [("valence", (0.2, 0.5)); ("energy", (0.3, 0.6)); ("acousticness", (0.4, 0.7))]);
    ("fear", [("valence", (0.0, 0.4)); ("energy", (0.2, 0.5)); ("instrumentalness", (0.3, 1.0))]);
    ("neutral", [("valence", (0.4, 0.6)); ("energy", (0.4, 0.6))]) ]%float.

(** [table.get(key, default)] on the two class-level tables. *)
Definition table_get {A : Type} (table : list (string * A)) (key : string) (default : A) : A :=
  match lookup key table with
  | Some x => x
  | None => default
  end.

(** UTILITY - Convert target ranges *)
Definition _convert_targets (emotion : string) : list (string * float) :=
  let raw := table_get EMOTION_TARGETS emotion [] in
  map (fun '(k, (low, high)) => (("target_" ++ k)%string, ((low + high) / 2)%float)) raw.

Section Player.

(** [self.sp] and the [random] module. *)
Variable w : world.

Open Scope action_scope.

(** [next((d for d in devices if d["is_active"]), None)] over the elements
    of [devices]. *)
Fixpoint next_active (ds : list value) : result value :=
  match ds with
  | [] => Ret VNone
  | d :: ds' => (a <- getitem d "is_active" ;;
                 if truthy a then Ret d else next_active ds')%result
  end.

(** DEVICE HANDLING *)
Definition get_active_device : M value :=
  try (r <- sp w devices ;;
       devs <- lift (get r "devices" (VList [])) ;;
       if negb (truthy devs) then ret VNone
       else
         ds <- lift (iter devs) ;;
         active <- lift (next_active ds) ;;
         if truthy active then lift (getitem active "id")
         else lift (d0 <- getitem0 devs ;; getitem d0 "id")%result)
  except (fun _ => ret VNone).

Definition ensure_device : M value :=
  device <- get_active_device ;;
  (if truthy device
   then (try (sp w (transfer_playback device) ;; ret tt) except (fun _ => ret tt))
   else ret tt) ;;
  ret device.

(** [[t["uri"] for t in tracks]]. *)
Definition uris_of (tracks : value) : result (list value) :=
  (ts <- iter tracks ;; mapR (fun t => getitem t "uri") ts)%result.

(** [x[0]["id"] if x else None]. *)
Definition first_id (x : value) : result value :=
  if truthy x then (x0 <- getitem0 x ;; getitem x0 "id")%result else Ret VNone.

(** [[seed] if seed else None]. *)
Definition seed_list (seed : value) : option (list value) :=
  if truthy seed then Some [seed] else None.

(** LAYER 1 - USER-BASED RECOMMENDATIONS *)
Definition _layer_user_recommendations (emotion : string) : M (list value) :=
  print Layer1 ;;
  (try (r <- sp w (current_user_top_artists 5) ;;
       top_artists <- lift (get r "items" (VList [])) ;;
       r <- sp w (current_user_top_tracks 5) ;;
       top_tracks <- lift (get r "items" (VList [])) ;;
       seed_artist <- lift (first_id top_artists) ;;
       seed_track <- lift (first_id top_tracks) ;;
       seed_genre <- random_choice w (table_get EMOTION_GENRES emotion ["pop"]) ;;
       let targets := _convert_targets emotion in
       rec <- sp w (recommendations [seed_genre] (seed_list seed_artist)
                      (seed_list seed_track) 40 targets) ;;
       tracks <- lift (get rec "tracks" (VList [])) ;;
       lift (uris_of tracks))
   except (fun _ => ret [])).

(** [_match_features(feat, target)]: the loop over [target.items()]. *)
Fixpoint _match_features (feat : value) (target : list (string * (float * float)))
  : result bool :=
  match target with
  | [] => Ret true
  | (key, (low, high)) :: target' =>
      (present <- contains feat key ;;
       if negb present then _match_features feat target'
       else
         v <- getitem feat key ;;
         inside <- between low v high ;;
         if negb inside then Ret false else _match_features feat target')%result
  end.

(** [[t["track"]["id"] for t in items if t["track"]]]. *)
Fixpoint track_ids_of (items : list value) : result (list value) :=
  match items with
  | [] => Ret []
  | t :: items' =>
      (tr <- getitem t "track" ;;
       if truthy tr
       then tr' <- getitem t "track" ;;
            id <- getitem tr' "id" ;;
            rest <- track_ids_of items' ;;
            Ret (id :: rest)
       else track_ids_of items')%result
  end.

(** The body of [for feat, item in zip(features, items)], run over the
    pairs of the zip; [matched] is the list being appended to. *)
Fixpoint match_pairs (target : list (string * (float * float)))
  (pairs : list (value * value)) (matched : list value) : result (list value) :=
  match pairs with
  | [] => Ret matched
  | (feat, item) :: pairs' =>
      (keep <- (if truthy feat then _match_features feat target else Ret false) ;;
       if keep
       then tr <- getitem item "track" ;;
            uri <- getitem tr "uri" ;;
            match_pairs target pairs' (matched ++ [uri])
       else match_pairs target pairs' matched)%result
  end.

(** The body of [for pl in playlists]. *)
Definition match_playlist (target : list (string * (float * float)))
  (matched : list value) (pl : value) : M (list value) :=
  id <- lift (getitem pl "id") ;;
  r <- sp w (playlist_tracks id 50) ;;
  items <- lift (get r "items" (VList [])) ;;
  its <- lift (iter items) ;;
  track_ids <- lift (track_ids_of its) ;;
  match track_ids with
  | [] => ret matched
  | _ :: _ =>
      features <- sp w (audio_features track_ids) ;;
      fs <- lift (iter features) ;;
      lift (match_pairs target (combine fs its) matched)
  end.

(** LAYER 2 - USER PLAYLIST MATCHING *)
Definition _layer_playlist_matches (emotion : string) : M (list value) :=
  print Layer2 ;;
  (try (r <- sp w current_user_playlists ;;
       playlists <- lift (get r "items" (VList [])) ;;
       let target := table_get EMOTION_TARGETS emotion [] in
       pls <- lift (iter playlists) ;;
       for_each pls [] (match_playlist target))
   except (fun _ => ret [])).

(** LAYER 3 - GLOBAL FALLBACK.  The first [try] block assigns the local
    [seed] and may return; what it leaves behind is the pair of [seed] (when
    the assignment was reached) and the returned list (when it returned).
    Both handlers of the split block are the source's [except: pass]. *)
Definition _layer_global_recommendations (emotion : string) : M (list value) :=
  print Layer3 ;;
  st <- (try (seed <- random_choice w (table_get EMOTION_GENRES emotion ["pop"]) ;;
              (try (let targets := _convert_targets emotion in
                   rec <- sp w (recommendations [seed] None None 50 targets) ;;
                   tracks <- lift (get rec "tracks" (VList [])) ;;
                   if truthy tracks
                   then uris <- lift (uris_of tracks) ;; ret (Some seed, Some uris)
                   else ret (Some seed, None))
               except (fun _ => ret (Some seed, None))))
         except (fun _ => ret (None, None))) ;;
  match snd st with
  | Some uris => ret uris
  | None =>
      (* Fallback: search *)
      try (match fst st with
           | None => raise NameError
           | Some seed =>
               result <- sp w (search ("genre:" ++ seed)%string "track" 30) ;;
               lift (tr <- getitem result "tracks" ;;
                     items <- getitem tr "items" ;;
                     uris_of items)%result
           end)
      except (fun _ => ret [])
  end.

(** [a or b] on lists. *)
Definition or_else (a : M (list value)) (b : M (list value)) : M (list value) :=
  q <- a ;;
  match q with
  | [] => b
  | _ :: _ => ret q
  end.

(** Multi-layered queue: [layer1 or layer2 or layer3]. *)
Definition multi_layered_queue (emotion : string) : M (list value) :=
  or_else (_layer_user_recommendations emotion)
    (or_else (_layer_playlist_matches emotion)
       (_layer_global_recommendations emotion)).

(** PLAYBACK FOR EMOTION *)
Definition play_for_emotion (emotion : string) : M bool :=
  let emotion := lower emotion in
  device <- ensure_device ;;
  if negb (truthy device)
  then print NoDeviceFound ;; ret false
  else
    queue <- multi_layered_queue emotion ;;
    match queue with
    | [] => print NoTracksFound ;; ret false
    | _ :: _ =>
        try (sp w (start_playback device (firstn 50 queue)) ;;
             print (NowPlaying (upper emotion) (length queue)) ;;
             ret true)
        except (fun e => print (PlaybackFailed e) ;; ret false)
    end.

(** BASIC CONTROLS *)
Definition pause : M value :=
  try (sp w pause_playback ;; ret VNone) except (fun _ => ret VNone).

Definition next : M value :=
  try (sp w next_track ;; ret VNone) except (fun _ => ret VNone).

End Player.

End SpotifyPlayer.

Import SpotifyPlayer.

(* ================================================================== *)
(** ** [interface.py]: the emotion aggregator *)
(* ================================================================== *)

Module Interface.

Definition EMOTION_FRAMES : nat := 5.

(** What [ea.analyze] returns when it returns a dict (the ["raw"] entry is
    left out). *)
Record analysis : Type := {
  emotion : string;
  confidence : float
}.

Section Aggregator.

(** A captured image. *)
Variable frame : Type.

(** The camera and the classifier at the [i]-th pass of the loop:
    [wm.get_frame()] returns [(ok, frame)], [ea.analyze(frame)] returns a
    dict or [None]. *)
Record sensors : Type := {
  get_frame : nat -> bool * frame;
  analyze : nat -> frame -> option analysis
}.

(** [collections.Counter]: the items in first-seen order, each key with the
    number of its occurrences. *)
Fixpoint counter_add (c : list (string * nat)) (x : string) : list (string * nat) :=
  match c with
  | [] => [(x, 1)]
  | (k, n) :: c' => if String.eqb k x then (k, S n) :: c'
                    else (k, n) :: counter_add c' x
  end.

Definition Counter (l : list string) : list (string * nat) :=
  fold_left counter_add l [].

(** [max(items, key=itemgetter(1))]: the first item with the largest count. *)
Fixpoint max_count (best : string * nat) (items : list (string * nat)) : string * nat :=
  match items with
  | [] => best
  | kv :: items' => if (snd best <? snd kv)%nat then max_count kv items'
                    else max_count best items'
  end.

(** [c.most_common(1)]. *)
Definition most_common_1 (c : list (string * nat)) : list (string * nat) :=
  match c with
  | [] => []
  | kv :: c' => [max_count kv c']
  end.

(** The body of [for _ in range(EMOTION_FRAMES)] over the passes [passes];
    [emotions] is the list being appended to. *)
Fixpoint sample (s : sensors) (passes : list nat) (emotions : list string) : list string :=
  match passes with
  | [] => emotions
  | i :: passes' =>
      let '(ok, frame) := get_frame s i in
      if negb ok then sample s passes' emotions
      else match analyze s i frame with
           | Some data => sample s passes' (emotions ++ [emotion data])
           | None => sample s passes' emotions
           end
  end.

(** Capture multiple frames and return the most frequent emotion. *)
Definition detect_dominant_emotion (s : sensors) : result (option string) :=
  let emotions := sample s (seq 0 EMOTION_FRAMES) [] in
  match emotions with
  | [] => Ret None
  | _ :: _ => match most_common_1 (Counter emotions) with
              | kv :: _ => Ret (Some (fst kv))
              | [] => Raise IndexError
              end
  end.

End Aggregator.

Arguments get_frame {frame} s i.
Arguments analyze {frame} s i f.
Arguments sample {frame} s passes emotions.
Arguments detect_dominant_emotion {frame} s.

End Interface.

Import Interface.

(* ================================================================== *)
(** ** [webcam_manager.py]: [class WebcamManager] *)
(* ================================================================== *)

Module WebcamManager.

(** What is done to the capture device [self.cap]. *)
Inductive cam_event : Type :=
| IsOpened
| Read
| Release.

Section Camera.

(** A captured image. *)
Variable frame : Type.

(** [cv2.VideoCapture]: whether it is open, and what [read()] returns, as
    functions of what was done to it before. *)
Record capture : Type := {
  isOpened : list cam_event -> bool;
  read : list cam_event -> bool * option frame
}.

(** The attributes of a manager; [cap] tells whether [self.cap] holds the
    capture object ([true]) or [None] ([false]). *)
Record manager : Type := {
  device_index : nat;
  width : nat;
  height : nat;
  cap : bool
}.

Variable dev : capture.

(** Returns (success, frame).  success=False means no frame was captured. *)
Definition get_frame (m : manager) (log : list cam_event)
  : (bool * option frame) * list cam_event :=
  if negb (cap m) then ((false, None), log)
  else (read dev log, log ++ [Read]).

(** [read]: simple alias for get_frame(). *)
Definition read_ (m : manager) (log : list cam_event)
  : (bool * option frame) * list cam_event :=
  get_frame m log.

(** Check if webcam is still open. *)
Definition is_opened (m : manager) (log : list cam_event) : bool * list cam_event :=
  if cap m then (isOpened dev log, log ++ [IsOpened]) else (false, log).

(** Release webcam resource. *)
Definition release (m : manager) (log : list cam_event) : manager * list cam_event :=
  if cap m
  then ({| device_index := device_index m; width := width m;
           height := height m; cap := false |}, log ++ [Release])
  else (m, log).

(** Safety cleanup. *)
Definition __del__ (m : manager) (log : list cam_event) : manager * list cam_event :=
  release m log.

End Camera.

Arguments isOpened {frame} c log.
Arguments read {frame} c log.
Arguments get_frame {frame} dev m log.
Arguments read_ {frame} dev m log.
Arguments is_opened {frame} dev m log.

End WebcamManager.

(* ================================================================== *)
(** ** [emotion_analysis.py]: [class EmotionAnalyzer] *)
(* ================================================================== *)

Module EmotionAnalyzer.

(** [s.capitalize()] on the ASCII letters. *)
Definition capitalize (s : string) : string :=
  match s with
  | EmptyString => EmptyString
  | String c s' => String (upper_ascii c) (lower s')
  end.

(** [v.lower()]: only a string has the method. *)
Definition str_lower (v : value) : result string :=
  match v with
  | VStr s => Ret (lower s)
  | _ => Raise AttributeError
  end.

(** What a call of [analyze] comes to: the dict it returns, [None] returned
    in silence, or [None] returned from the handler after the failure was
    printed. *)
Inductive outcome : Type :=
| Analysed (a : analysis)
| Nothing
| Failed.

Section Analyzer.

(** A captured image. *)
Variable frame : Type.

(** The libraries behind the analyzer: [cv2.cvtColor(frame, COLOR_BGR2RGB)],
    [DeepFace.analyze(rgb, actions=["emotion"], detector_backend=backend,
    enforce_detection=False)], and the builtin [float] applied to a string
    (the number it parses to, if any). *)
Record vision : Type := {
  cvtColor : frame -> result frame;
  DeepFace_analyze : string -> frame -> result value;
  float_of_str : string -> option float
}.

Variable v : vision.

(** [float(x)]; [None] stands for the exception it raises. *)
Definition to_float (x : value) : option float :=
  match x with
  | VNum n => Some n
  | VBool b => Some (if b then 1%float else 0%float)
  | VStr s => float_of_str v s
  | _ => None
  end.

(** The body of the [try] block once DeepFace has answered; [Raise] is any
    exception raised in it, [Ret None] is its [return None]. *)
Definition read_result (answer : value) : result (option (string * value)) :=
  (result <- (match answer with
              | VList _ => getitem0 answer
              | _ => Ret answer
              end) ;;
   present <- contains result "dominant_emotion" ;;
   if negb present then Ret None
   else
     d <- getitem result "dominant_emotion" ;;
     dominant <- str_lower d ;;
     emotion_scores <- get result "emotion" (VDict []) ;;
     c1 <- get emotion_scores (capitalize dominant) VNone ;;
     confidence <- (if truthy c1 then Ret c1
                    else c2 <- get emotion_scores dominant VNone ;;
                         Ret (if truthy c2 then c2 else VNum 0%float)) ;;
     Ret (Some (dominant, confidence)))%result.

(** Analyze emotion from a webcam frame. *)
Definition analyze (backend : string) (frame : option frame) : outcome :=
  match frame with
  | None => Nothing
  | Some f =>
      match (rgb <- cvtColor v f ;;
             result <- DeepFace_analyze v backend rgb ;;
             read_result result)%result with
      | Raise _ => Failed
      | Ret None => Nothing
      | Ret (Some (dominant, confidence)) =>
          match to_float confidence with
          | Some x => Analysed {| emotion := dominant; confidence := x |}
          | None => Failed
          end
      end
  end.

End Analyzer.

Arguments cvtColor {frame} v f.
Arguments DeepFace_analyze {frame} v backend f.
Arguments float_of_str {frame} v s.
Arguments to_float {frame} v x.
Arguments analyze {frame} v backend frame.

(** The value Python code sees. *)
Definition returned (o : outcome) : option analysis :=
  match o with
  | Analysed a => Some a
  | _ => None
  end.

End EmotionAnalyzer.

(* ================================================================== *)
(** ** [interface.py]: the sensors of the window and its Next button *)
(* ================================================================== *)

Module AuraInterface.

(** The lines the window prints. *)
Inductive gui_line : Type :=
| NextPressed
| Detected (emotion : string)
| NoFaceDetected
| NextTrackError (e : exn)
| PlayPauseError (e : exn).





Section Window.

Variable frame : Type.

(** The globals [wm] and [ea] as the sampling loop uses them: the manager
    [m] on the device [dev] whose log is [log] when the loop starts, and the
    analyzer with backend [backend] on the libraries [v i] of pass [i].  A
    manager without capture object reads nothing; an open one has read
    [i] frames before pass [i]. *)
Definition wm_ea (dev : WebcamManager.capture frame) (m : WebcamManager.manager)
  (log : list WebcamManager.cam_event)
  (v : nat -> EmotionAnalyzer.vision frame) (backend : string)
  : sensors (option frame) := {|
  get_frame := fun i =>
    fst (WebcamManager.get_frame dev m (log ++ repeat WebcamManager.Read i));
  analyze := fun i f =>
    EmotionAnalyzer.returned (EmotionAnalyzer.analyze (v i) backend f)
|}.

(** Next track button triggers emotion detection first.  [current_emotion]
    is the global before the call; the result is how the call ends, the
    global after it and the lines the window printed. *)
Definition next_track_emotion (s : sensors frame) (w : world)
  (current_emotion : string) (h : history)
  : (result unit * string * list gui_line) * history :=
  match detect_dominant_emotion s with
  | Raise e => ((Raise e, current_emotion, [NextPressed]), h)
  | Ret detected =>
      match detected with
      | Some (String c rest as emotion) =>
          match play_for_emotion w emotion h with
          | (Ret _, h') => ((Ret tt, emotion, [NextPressed; Detected emotion]), h')
          | (Raise e, h') => ((Raise e, emotion, [NextPressed; Detected emotion]), h')
          end
      | _ =>
          match sp w next_track h with
          | (Ret _, h') => ((Ret tt, current_emotion, [NextPressed; NoFaceDetected]), h')
          | (Raise e, h') =>
              ((Ret tt, current_emotion,
                [NextPressed; NoFaceDetected; NextTrackError e]), h')
          end
      end
  end.

End Window.

Arguments wm_ea {frame} dev m log v backend.
Arguments next_track_emotion {frame} s w current_emotion h.

End AuraInterface.

(* ================================================================== *)
(** ** Concrete cameras, analyzers and desks *)
(* ================================================================== *)

Module Studio.

(** A camera that is open and numbers its frames. *)
Definition camera : WebcamManager.capture nat := {|
  WebcamManager.isOpened := fun _ => true;
  WebcamManager.read := fun log => (true, Some (length log))
|}.

Definition manager : WebcamManager.manager := {|
  WebcamManager.device_index := 0;
  WebcamManager.width := 640;
  WebcamManager.height := 480;
  WebcamManager.cap := true
|}.

(** DeepFace answers with a one-element list; the subject smiles on every
    frame but the second. *)
Definition faces (i : nat) : EmotionAnalyzer.vision nat := {|
  EmotionAnalyzer.cvtColor := fun f => Ret f;
  EmotionAnalyzer.DeepFace_analyze := fun _ _ =>
    Ret (VList [VDict [("dominant_emotion", VStr (if Nat.eqb i 1 then "Sad" else "Happy"));
                       ("emotion", VDict [("happy", VNum 93.5); ("sad", VNum 4.25)])]]);
  EmotionAnalyzer.float_of_str := fun _ => None
|}.



End Studio.

(* ================================================================== *)
(** ** Concrete worlds *)
(* ================================================================== *)

Module Scenarios.

(** A playlist item carrying a track, and one whose track is null. *)
Definition item (id : string) : value :=
  VDict [("track", VDict [("id", VStr id); ("uri", VStr ("spotify:track:" ++ id)%string)])].

Definition null_item : value := VDict [("track", VNone)].

(** Measured features by track id: track A is quiet and sad, track B is
    bright and lively. *)
Definition features_for (id : value) : value :=
  match id with
  | VStr "A" => VDict [("valence", VNum 0.1); ("energy", VNum 0.2); ("danceability", VNum 0.3)]
  | VStr "B" => VDict [("valence", VNum 0.8); ("energy", VNum 0.9); ("danceability", VNum 0.7)]
  | _ => VNone
  end.

(** A library with one playlist holding [items]; the service measures the
    features of exactly the tracks it is asked about. *)
Definition library (items : list value) : world := {|
  service := fun _ c =>
    match c with
    | current_user_playlists => Ret (VDict [("items", VList [VDict [("id", VStr "pl1")]])])
    | playlist_tracks _ _ => Ret (VDict [("items", VList items)])
    | audio_features ids => Ret (VList (map features_for ids))
    | _ => Raise (ServiceError 404)
    end;
  randbelow := fun _ _ => 0
|}.

(** Nothing answers. *)
Definition offline : world := {|
  service := fun _ _ => Raise (ServiceError 503);
  randbelow := fun _ _ => 0
|}.

(** [n] tracks with distinct URIs. *)
Definition numbered (n : nat) : list value :=
  map (fun i => VDict [("uri", VStr ("spotify:track:" ++
                                       NilZero.string_of_uint (Nat.to_uint i))%string)])
      (seq 0 n).

(** A listener with an active device whose recommendations come back with
    [n] tracks. *)
Definition listening (n : nat) : world := {|
  service := fun _ c =>
    match c with
    | devices => Ret (VDict [("devices",
                   VList [VDict [("id", VStr "phone"); ("is_active", VBool false)];
                          VDict [("id", VStr "laptop"); ("is_active", VBool true)]])])
    | transfer_playback _ => Ret VNone
    | current_user_top_artists _ => Ret (VDict [("items", VList [VDict [("id", VStr "artist1")]])])
    | current_user_top_tracks _ => Ret (VDict [("items", VList [])])
    | recommendations _ _ _ _ _ => Ret (VDict [("tracks", VList (numbered n))])
    | start_playback _ _ => Ret VNone
    | _ => Raise (ServiceError 404)
    end;
  randbelow := fun _ _ => 1
|}.

(** A service on which only the search works. *)
Definition search_only : world := {|
  service := fun _ c =>
    match c with
    | search _ _ _ => Ret (VDict [("tracks", VDict [("items", VList (numbered 3))])])
    | _ => Raise (ServiceError 429)
    end;
  randbelow := fun _ _ => 2
|}.

(** What one pass of the sampling loop meets: no frame, a frame the
    classifier finds nothing in, or a frame with a label. *)
Inductive pass : Type :=
| NoFrame
| NoFace
| Heard (label : string).

(** Sensors that play back a list of passes; frames are numbered. *)
Definition recording (script : list pass) : sensors nat := {|
  get_frame := fun i => match nth i script NoFrame with
                        | NoFrame => (false, i)
                        | _ => (true, i)
                        end;
  analyze := fun i _ => match nth i script NoFrame with
                        | Heard l => Some {| emotion := l; confidence := 0.9 |}
                        | _ => None
                        end
|}.

End Scenarios.

Import Scenarios.

(* ================================================================== *)
(** ** Vocabulary of the statements *)
(* ================================================================== *)

(** The closed set of emotions. *)
Definition closed_set : list string :=
  ["happy"; "sad"; "angry"; "surprise"; "disgust"; "fear"; "neutral"].

(** [low <= x <= high] on floats, as a proposition. *)
Definition within (low x high : float) : Prop :=
  PrimFloat.leb low x = true /\ PrimFloat.leb x high = true.

(** A target interval together with the hint computed from it: the hint
    is named after the feature and lies in the interval. *)
Definition midpoint_in_range (t : string * (float * float)) (hint : string * float) : Prop :=
  let '(k, (low, high)) := t in
  fst hint = ("target_" ++ k)%string /\
  snd hint = ((low + high) / 2)%float /\
  within low (snd hint) high.

(** A target interval is satisfied by a feature map when the feature is
    absent from the map or its measured value lies in the interval. *)
Definition satisfied (d : list (string * value)) (t : string * (float * float)) : Prop :=
  let '(key, (low, high)) := t in
  forall x, lookup key d = Some (VNum x) -> within low x high.

(** A feature map on which every feature named by [target] that is present
    carries a number. *)
Definition measured (d : list (string * value)) (target : list (string * (float * float))) : Prop :=
  forall key range v, In (key, range) target -> lookup key d = Some v ->
                      exists x, v = VNum x.

(** Events of device resolution. *)
Definition is_device_event (e : event) : bool :=
  match e with
  | Call devices | Call (transfer_playback _) => true
  | _ => false
  end.

(** Events of Layer 1: its banner, its random draw and its three calls. *)
Definition is_layer1_event (e : event) : bool :=
  match e with
  | Print Layer1 | Random => true
  | Call (current_user_top_artists _) | Call (current_user_top_tracks _) => true
  | Call (recommendations _ _ _ limit _) => Nat.eqb limit 40
  | _ => false
  end.

(** Events only Layer 2 produces: its banner and the playlist capabilities. *)
Definition is_layer2_event (e : event) : bool :=
  match e with
  | Print Layer2 => true
  | Call current_user_playlists | Call (playlist_tracks _ _) | Call (audio_features _) => true
  | _ => false
  end.

(** Events only Layer 3 produces: its banner, its recommendation request
    (the one with limit 50) and the search. *)
Definition is_layer3_event (e : event) : bool :=
  match e with
  | Print Layer3 => true
  | Call (recommendations _ _ _ limit _) => Nat.eqb limit 50
  | Call (search _ _ _) => true
  | _ => false
  end.

(** Events of any recommendation layer. *)
Definition is_layer_event (e : event) : bool :=
  match e with
  | Print Layer1 | Print Layer2 | Print Layer3 | Random => true
  | Call (current_user_top_artists _) | Call (current_user_top_tracks _) => true
  | Call (recommendations _ _ _ _ _) => true
  | Call current_user_playlists | Call (playlist_tracks _ _) | Call (audio_features _) => true
  | Call (search _ _ _) => true
  | _ => false
  end.

(** Events of the submission of a queue. *)
Definition is_playback_event (e : event) : bool :=
  match e with
  | Call (start_playback _ _) => true
  | Print (NowPlaying _ _) | Print (PlaybackFailed _) => true
  | _ => false
  end.

(** What [play_for_emotion] does with a non-empty queue on a device: the
    start call with the first 50 URIs, then the report. *)
Definition playback_outcome (w : world) (emotion : string) (device : value)
  (queue : list value) (h : history) : result bool * history :=
  let c := start_playback device (firstn 50 queue) in
  match service w h c with
  | Ret _ => (Ret true, h ++ [Call c; Print (NowPlaying (upper emotion) (length queue))])
  | Raise e => (Ret false, h ++ [Call c; Print (PlaybackFailed e)])
  end.

(** One pair of the zip judged on its own: the URI of the item when the
    feature map passes, nothing otherwise. *)
Definition judged (target : list (string * (float * float))) (pair : value * value)
  : result (list value) :=
  let '(feat, item) := pair in
  (keep <- (if truthy feat then _match_features feat target else Ret false) ;;
   if keep
   then tr <- getitem item "track" ;; uri <- getitem tr "uri" ;; Ret [uri]
   else Ret [])%result.

(** The genre Layer 3 draws when it starts from history [h]. *)
Definition layer3_seed (w : world) (e : string) (h : history) : string :=
  let genres := table_get EMOTION_GENRES e ["pop"] in
  nth (randbelow w (h ++ [Print Layer3]) (length genres) mod length genres) genres "pop".

(** The recommendation request of Layer 3 and its search request. *)
Definition layer3_request (e seed : string) : call :=
  recommendations [seed] None None 50 (_convert_targets e).

Definition layer3_search (seed : string) : call :=
  search ("genre:" ++ seed)%string "track" 30.

(** The URIs read from the answer to a recommendation request, when the
    request succeeded and its answer lists at least one track. *)
Definition recommended (r : result value) : option (list value) :=
  match (rec <- r ;; get rec "tracks" (VList []))%result with
  | Ret tracks => if truthy tracks
                  then match uris_of tracks with
                       | Ret uris => Some uris
                       | Raise _ => None
                       end
                  else None
  | Raise _ => None
  end.

(** The URIs read from the answer to a search, none when the search failed. *)
Definition found (r : result value) : list value :=
  match (result <- r ;;
         tr <- getitem result "tracks" ;;
         items <- getitem tr "items" ;;
         uris_of items)%result with
  | Ret uris => uris
  | Raise _ => []
  end.

(** Replaying the events [evs] appended after [h]: every service call among
    them was answered with a value, none raised. *)
Fixpoint answered (w : world) (h : history) (evs : list event) : bool :=
  match evs with
  | [] => true
  | ev :: evs' =>
      match ev with
      | Call c => match service w h c with
                  | Ret _ => true
                  | Raise _ => false
                  end
      | _ => true
      end && answered w (h ++ [ev]) evs'
  end.

(** [m] terminates normally from every history. *)
Definition returns {A : Type} (m : M A) : Prop :=
  forall h, exists a h', m h = (Ret a, h').

(** [m] only appends to the history, and only events satisfying [P]. *)
Definition emits (P : event -> bool) {A : Type} (m : M A) : Prop :=
  forall h r h', m h = (r, h') -> exists evs, h' = h ++ evs /\ forallb P evs = true.

(** When [m] terminates normally, every service call it made was answered. *)
Definition clean (w : world) {A : Type} (m : M A) : Prop :=
  forall h a h', m h = (Ret a, h') ->
                 exists evs, h' = h ++ evs /\ answered w h evs = true.

Section AggregatorVocabulary.

Variable frame : Type.

(** The label of pass [i], when the frame was captured and classified. *)
Definition label_at (s : sensors frame) (i : nat) : option string :=
  let (ok, f) := get_frame s i in
  if ok then option_map emotion (analyze s i f) else None.

(** The labels of the successful passes, in order. *)
Definition successes (s : sensors frame) : list string :=
  flat_map (fun i => match label_at s i with Some l => [l] | None => [] end)
           (seq 0 EMOTION_FRAMES).

End AggregatorVocabulary.

Arguments label_at {frame} s i.
Arguments successes {frame} s.

(** The number of occurrences of a label. *)
Definition count (x : string) (l : list string) : nat := count_occ string_dec l x.

(** [a] occurs in [l] before any occurrence of [b]. *)
Definition seen_before (a b : string) (l : list string) : Prop :=
  exists pre post, l = pre ++ a :: post /\ ~ In b pre.

(** The keys of a counter in order, and the count it holds for a key. *)
Definition keys (c : list (string * nat)) : list string := map fst c.

Definition tally (c : list (string * nat)) (x : string) : nat :=
  match lookup x c with Some n => n | None => 0 end.

(** What a counter knows about the list it was built from. *)
Record counts_of (c : list (string * nat)) (l : list string) : Prop := {
  counts_nodup : NoDup (keys c);
  counts_tally : forall x, tally c x = count x l;
  counts_keys : forall x, In x (keys c) <-> In x l;
  counts_order : forall k1 a k2 b, keys c = k1 ++ a :: k2 -> In b k2 -> seen_before a b l
}.

(* ================================================================== *)
(** ** Vocabulary of the further statements *)
(* ================================================================== *)

(** The entry of a dict under a key, [None] when there is none. *)
Definition field (key : string) (v : value) : value :=
  match getitem v key with
  | Ret x => x
  | Raise _ => VNone
  end.

(** A device as the service lists it: a dict with "is_active" and "id". *)
Definition device_entry (d : value) : Prop :=
  (exists a, getitem d "is_active" = Ret a) /\ (exists i, getitem d "id" = Ret i).

(** The id device resolution settles on: that of the first active device,
    else that of the first device, else [None]. *)
Definition chosen_device (ds : list value) : value :=
  match find (fun d => truthy (field "is_active" d)) ds with
  | Some d => field "id" d
  | None => match ds with
            | d0 :: _ => field "id" d0
            | [] => VNone
            end
  end.


(** A playlist item that carries a track with an id and a URI. *)
Definition has_track (item : value) : Prop :=
  exists tr id uri, getitem item "track" = Ret tr /\ truthy tr = true /\
                    getitem tr "id" = Ret id /\ getitem tr "uri" = Ret uri.

(** A playlist item whose track is null (or otherwise false). *)
Definition has_no_track (item : value) : Prop :=
  exists tr, getitem item "track" = Ret tr /\ truthy tr = false.

Definition track_id (item : value) : value := field "id" (field "track" item).

Definition track_uri (item : value) : value := field "uri" (field "track" item).

(** A feature map that is present and matches the target intervals. *)
Definition passes (target : list (string * (float * float))) (feat : value) : bool :=
  truthy feat && match _match_features feat target with
                 | Ret b => b
                 | Raise _ => false
                 end.

(** A feature map on which the matching predicate returns. *)
Definition judgeable (target : list (string * (float * float))) (feat : value) : Prop :=
  truthy feat = true -> exists b, _match_features feat target = Ret b.

(** A request to start playback. *)
Definition is_start_event (e : event) : bool :=
  match e with
  | Call (start_playback _ _) => true
  | _ => false
  end.

(** One of the four lines that tell how a run of [play_for_emotion] ended. *)
Definition is_outcome_event (e : event) : bool :=
  match e with
  | Print NoDeviceFound | Print NoTracksFound => true
  | Print (NowPlaying _ _) | Print (PlaybackFailed _) => true
  | _ => false
  end.

(** A string of ASCII characters: on these [lower] and [upper] are Python's
    [str.lower] and [str.upper]. *)
Fixpoint ascii_only (s : string) : bool :=
  match s with
  | EmptyString => true
  | String c s' => (nat_of_ascii c <? 128)%nat && ascii_only s'
  end.

(* ================================================================== *)
(** ** TargetProfile *)
(* ================================================================== *)

Lemma lookup_not_in {A : Type} (key : string) (d : list (string * A)) :
  ~ In key (map fst d) -> lookup key d = None.
Proof.
  induction d as [|[k v] d IH]; simpl; intros Hn.
  - reflexivity.
  - destruct (String.eqb_spec k key) as [->|Hne].
    + exfalso. apply Hn. now left.
    + apply IH. intros Hin. apply Hn. now right.
Qed.

Lemma closed_set_profile (e : string) :
  In e closed_set ->
  table_get EMOTION_GENRES e ["pop"] <> [] /\
  Forall (fun t => PrimFloat.leb (fst (snd t)) (snd (snd t)) = true)
         (table_get EMOTION_TARGETS e []) /\
  Forall2 midpoint_in_range (table_get EMOTION_TARGETS e []) (_convert_targets e).
Proof.
  intros Hin. unfold closed_set in Hin. simpl in Hin.
  repeat (destruct Hin as [<-|Hin];
          [ vm_compute; repeat split; try discriminate;
            repeat (constructor; repeat split) | ]).
  contradiction.
Qed.

Lemma fallback_profile (e : string) :
  ~ In e closed_set ->
  table_get EMOTION_GENRES e ["pop"] = ["pop"] /\
  table_get EMOTION_TARGETS e [] = [] /\
  _convert_targets e = [].
Proof.
  intros Hout.
  assert (Hg : lookup e EMOTION_GENRES = None) by (apply lookup_not_in; exact Hout).
  assert (Ht : lookup e EMOTION_TARGETS = None) by (apply lookup_not_in; exact Hout).
  unfold _convert_targets, table_get. rewrite Hg, Ht. repeat split.
Qed.

(** C8: on the closed set the genre list is not empty, every interval has
    low <= high and every hint of [_convert_targets] is the midpoint of its
    interval and lies inside it; outside the closed set the lookups fall back
    to ["pop"] and to no interval at all. *)
Theorem target_profile_lookup (e : string) :
  (In e closed_set ->
     table_get EMOTION_GENRES e ["pop"] <> [] /\
     Forall (fun t => PrimFloat.leb (fst (snd t)) (snd (snd t)) = true)
            (table_get EMOTION_TARGETS e []) /\
     Forall2 midpoint_in_range (table_get EMOTION_TARGETS e []) (_convert_targets e)) /\
  (~ In e closed_set ->
     table_get EMOTION_GENRES e ["pop"] = ["pop"] /\
     table_get EMOTION_TARGETS e [] = [] /\
     _convert_targets e = []).
Proof.
  split; [apply closed_set_profile | apply fallback_profile].
Qed.

Lemma target_profile_lookup_witness :
  In "sad" closed_set /\
  Forall2 midpoint_in_range (table_get EMOTION_TARGETS "sad" []) (_convert_targets "sad") /\
  ~ In "bored" closed_set /\
  table_get EMOTION_GENRES "bored" ["pop"] = ["pop"].
Proof.
  assert (Hin : In "sad" closed_set) by (simpl; auto).
  assert (Hout : ~ In "bored" closed_set).
  { simpl. intros H. repeat (destruct H as [H|H]; [discriminate H|]). exact H. }
  split; [exact Hin|]. split.
  - exact (proj2 (proj2 (proj1 (target_profile_lookup "sad") Hin))).
  - split; [exact Hout|].
    exact (proj1 (proj2 (target_profile_lookup "bored") Hout)).
Defined.

(* ================================================================== *)
(** ** Feature matching *)
(* ================================================================== *)

Lemma measured_tail d t target :
  measured d (t :: target) -> measured d target.
Proof.
  intros H key range v Hin. apply (H key range v). now right.
Qed.

Lemma match_features_decides d target :
  measured d target ->
  exists b, _match_features (VDict d) target = Ret b /\
            (b = true <-> Forall (satisfied d) target).
Proof.
  induction target as [|[key [low high]] target IH]; intros Hm.
  - exists true. split; [reflexivity|]. split; auto.
  - destruct (IH (measured_tail _ _ _ Hm)) as [b [Hrun Hb]].
    simpl. destruct (lookup key d) as [v|] eqn:Hl; simpl.
    + destruct (Hm key (low, high) v (or_introl eq_refl) Hl) as [x ->].
      simpl. destruct (PrimFloat.leb low x && PrimFloat.leb x high) eqn:Hin; simpl.
      * exists b. split; [exact Hrun|]. rewrite Hb. split.
        -- intros Hall. constructor; [|exact Hall].
           simpl. intros y Hy. rewrite Hl in Hy. injection Hy as <-.
           apply andb_true_iff in Hin. exact Hin.
        -- intros Hall. now inversion Hall.
      * exists false. split; [reflexivity|]. split; [discriminate|].
        intros Hall. inversion Hall as [|? ? Hhd _]; subst.
        simpl in Hhd. destruct (Hhd x Hl) as [H1 H2].
        rewrite H1, H2 in Hin. discriminate.
    + exists b. split; [exact Hrun|]. rewrite Hb. split.
      * intros Hall. constructor; [|exact Hall].
        simpl. intros y Hy. rewrite Hl in Hy. discriminate.
      * intros Hall. now inversion Hall.
Qed.

Lemma match_features_no_overlap d target :
  (forall key range, In (key, range) target -> lookup key d = None) ->
  _match_features (VDict d) target = Ret true.
Proof.
  induction target as [|[key [low high]] target IH]; intros Hnone.
  - reflexivity.
  - simpl. rewrite (Hnone key (low, high) (or_introl eq_refl)). simpl.
    apply IH. intros k r Hin. apply (Hnone k r). now right.
Qed.

(** C3: on a track's feature map the predicate returns, and it returns
    [True] exactly when every target interval whose feature is present on
    the map contains the measured value; a map sharing no feature with the
    target set passes; valence 0.8 passes (0.7, 1.0), valence 0.5 fails it,
    and a map without "valence" passes it. *)
Theorem match_features_spec (d : list (string * value))
  (target : list (string * (float * float))) :
  (measured d target ->
     exists b, _match_features (VDict d) target = Ret b /\
               (b = true <-> Forall (satisfied d) target)) /\
  ((forall key range, In (key, range) target -> lookup key d = None) ->
     _match_features (VDict d) target = Ret true) /\
  _match_features (VDict [("valence", VNum 0.8)]) [("valence", (0.7, 1.0)%float)] = Ret true /\
  _match_features (VDict [("valence", VNum 0.5)]) [("valence", (0.7, 1.0)%float)] = Ret false /\
  _match_features (VDict [("tempo", VNum 120)]) [("valence", (0.7, 1.0)%float)] = Ret true.
Proof.
  split; [apply match_features_decides|].
  split; [apply match_features_no_overlap|].
  repeat split; reflexivity.
Qed.

Lemma match_features_spec_witness :
  let d := [("valence", VNum 0.8); ("energy", VNum 0.2)] in
  let target := table_get EMOTION_TARGETS "happy" [] in
  measured d target /\
  exists b, _match_features (VDict d) target = Ret b /\
            (b = true <-> Forall (satisfied d) target).
Proof.
  intros d target.
  assert (Hm : measured d target).
  { intros key range v _. subst d. cbn [lookup].
    destruct (String.eqb "valence" key);
      [intros Hl; injection Hl as <-; eexists; reflexivity|].
    destruct (String.eqb "energy" key);
      [intros Hl; injection Hl as <-; eexists; reflexivity|].
    discriminate. }
  split; [exact Hm|].
  exact (proj1 (match_features_spec d target) Hm).
Defined.

(* ================================================================== *)
(** ** Reasoning about computations *)
(* ================================================================== *)

Lemma returns_ret {A : Type} (a : A) : returns (ret a).
Proof. intros h. now exists a, h. Qed.

Lemma returns_print (l : line) : returns (print l).
Proof. intros h. now exists tt, (h ++ [Print l]). Qed.

Lemma returns_bind {A B : Type} (m : M A) (k : A -> M B) :
  returns m -> (forall a, returns (k a)) -> returns (bind m k).
Proof.
  intros Hm Hk h. destruct (Hm h) as [a [h1 E1]].
  destruct (Hk a h1) as [b [h2 E2]].
  exists b, h2. unfold bind. now rewrite E1.
Qed.

Lemma returns_try {A : Type} (m : M A) (handler : exn -> M A) :
  (forall e, returns (handler e)) -> returns (try_except m handler).
Proof.
  intros Hh h. unfold try_except.
  destruct (m h) as [[a|e] h1] eqn:E.
  - now exists a, h1.
  - apply Hh.
Qed.

Lemma returns_or_else (a b : M (list value)) :
  returns a -> returns b -> returns (or_else a b).
Proof.
  intros Ha Hb. unfold or_else. apply returns_bind; [exact Ha|].
  intros [|x q]; [exact Hb | apply returns_ret].
Qed.

Lemma emits_ret P {A : Type} (a : A) : emits P (ret a).
Proof.
  intros h r h' E. injection E as <- <-. exists []. now rewrite app_nil_r.
Qed.

Lemma emits_raise P {A : Type} (e : exn) : emits P (@raise A e).
Proof.
  intros h r h' E. injection E as <- <-. exists []. now rewrite app_nil_r.
Qed.

Lemma emits_lift P {A : Type} (x : result A) : emits P (lift x).
Proof.
  intros h r h' E. injection E as <- <-. exists []. now rewrite app_nil_r.
Qed.

Lemma emits_sp P (w : world) (c : call) : P (Call c) = true -> emits P (sp w c).
Proof.
  intros HP h r h' E. injection E as <- <-. exists [Call c]. simpl. now rewrite HP.
Qed.

Lemma emits_print P (l : line) : P (Print l) = true -> emits P (print l).
Proof.
  intros HP h r h' E. injection E as <- <-. exists [Print l]. simpl. now rewrite HP.
Qed.

Lemma emits_random_choice P (w : world) (seq : list string) :
  P Random = true -> emits P (random_choice w seq).
Proof.
  intros HP. destruct seq as [|x seq]; [apply emits_raise|].
  intros h r h' E. injection E as <- <-. exists [Random]. simpl. now rewrite HP.
Qed.

Lemma emits_bind P {A B : Type} (m : M A) (k : A -> M B) :
  emits P m -> (forall a, emits P (k a)) -> emits P (bind m k).
Proof.
  intros Hm Hk h r h' E. unfold bind in E.
  destruct (m h) as [[a|e] h1] eqn:E1.
  - destruct (Hm _ _ _ E1) as [ev1 [-> F1]].
    destruct (Hk a _ _ _ E) as [ev2 [-> F2]].
    exists (ev1 ++ ev2). rewrite app_assoc, forallb_app, F1, F2. now split.
  - injection E as <- <-. exact (Hm _ _ _ E1).
Qed.

Lemma emits_try P {A : Type} (m : M A) (handler : exn -> M A) :
  emits P m -> (forall e, emits P (handler e)) -> emits P (try_except m handler).
Proof.
  intros Hm Hh h r h' E. unfold try_except in E.
  destruct (m h) as [[a|e] h1] eqn:E1.
  - injection E as <- <-. exact (Hm _ _ _ E1).
  - destruct (Hm _ _ _ E1) as [ev1 [-> F1]].
    destruct (Hh e _ _ _ E) as [ev2 [-> F2]].
    exists (ev1 ++ ev2). rewrite app_assoc, forallb_app, F1, F2. now split.
Qed.

Lemma emits_for_each P {A B : Type} (l : list A) (body : B -> A -> M B) :
  (forall acc x, emits P (body acc x)) -> forall acc, emits P (for_each l acc body).
Proof.
  intros Hb. induction l as [|x l IH]; intros acc; simpl.
  - apply emits_ret.
  - apply emits_bind; [apply Hb | exact IH].
Qed.

Lemma emits_or_else P (a b : M (list value)) :
  emits P a -> emits P b -> emits P (or_else a b).
Proof.
  intros Ha Hb. unfold or_else. apply emits_bind; [exact Ha|].
  intros [|x q]; [exact Hb | apply emits_ret].
Qed.

(** Composite computations are taken apart down to the service calls. *)
Ltac emits_steps :=
  repeat first
    [ apply emits_ret | apply emits_raise | apply emits_lift
    | apply emits_print; reflexivity
    | apply emits_sp; reflexivity
    | apply emits_random_choice; reflexivity
    | apply emits_bind | apply emits_try | apply emits_or_else
    | apply emits_for_each
    | match goal with
      | |- forall _, _ => intro
      | |- emits _ (if ?c then _ else _) => destruct c
      | |- emits _ (match ?x with _ => _ end) => destruct x
      end ].

(** A filter that rejects every appended event sees the old history. *)
Lemma filter_rejected (Q : event -> bool) (h evs : history) :
  forallb (fun e => negb (Q e)) evs = true -> filter Q (h ++ evs) = filter Q h.
Proof.
  intros F. rewrite filter_app.
  assert (E : filter Q evs = []).
  { induction evs as [|e evs IH]; simpl in *; [reflexivity|].
    apply andb_true_iff in F as [F1 F2].
    destruct (Q e); [discriminate|]. now apply IH. }
  rewrite E. apply app_nil_r.
Qed.

(* ================================================================== *)
(** ** Basic controls *)
(* ================================================================== *)

(** C10: [pause()] and [next()] return [None] from every history and
    whatever the transport answers or raises; the call itself is the only
    thing they add to the history. *)
Theorem controls_swallow_errors (w : world) (h : history) :
  pause w h = (Ret VNone, h ++ [Call pause_playback]) /\
  next w h = (Ret VNone, h ++ [Call next_track]).
Proof.
  unfold pause, next, try_except, bind, sp, ret. split.
  - destruct (service w h pause_playback); reflexivity.
  - destruct (service w h next_track); reflexivity.
Qed.

(* ================================================================== *)
(** ** What each part of the player adds to the history *)
(* ================================================================== *)

Lemma ensure_device_emits (w : world) : emits is_device_event (ensure_device w).
Proof. unfold ensure_device, get_active_device. emits_steps. Qed.

Lemma layer1_emits (w : world) (e : string) :
  emits is_layer1_event (_layer_user_recommendations w e).
Proof. unfold _layer_user_recommendations. emits_steps. Qed.

Lemma layer2_emits (w : world) (e : string) :
  emits is_layer2_event (_layer_playlist_matches w e).
Proof. unfold _layer_playlist_matches, match_playlist. emits_steps. Qed.

(** The tail of [play_for_emotion], from the queue on. *)
Lemma play_from_queue (w : world) (emotion : string) (h h1 h2 : history)
  (dev : value) (queue : list value) :
  ensure_device w h = (Ret dev, h1) ->
  truthy dev = true ->
  multi_layered_queue w (lower emotion) h1 = (Ret queue, h2) ->
  play_for_emotion w emotion h =
    match queue with
    | [] => (Ret false, h2 ++ [Print NoTracksFound])
    | _ :: _ => playback_outcome w (lower emotion) dev queue h2
    end.
Proof.
  intros Hdev Ht Hq. unfold play_for_emotion, bind at 1. rewrite Hdev, Ht.
  cbn [negb]. unfold bind at 1. rewrite Hq. destruct queue as [|u queue].
  - reflexivity.
  - unfold playback_outcome, try_except, bind, sp, print, ret.
    destruct (service w h2 _); rewrite <- app_assoc; reflexivity.
Qed.

(* ================================================================== *)
(** ** Device resolution *)
(* ================================================================== *)

(** C5: when device resolution yields no device, [play_for_emotion] prints
    the diagnostic and returns [False]; the history holds no event of any
    recommendation layer that was not there before.  In particular this is
    what happens when the service lists zero devices and when listing the
    devices fails. *)
Theorem no_device_no_layer (w : world) (emotion : string) (h : history) :
  (forall dev h1,
     ensure_device w h = (Ret dev, h1) -> truthy dev = false ->
     play_for_emotion w emotion h = (Ret false, h1 ++ [Print NoDeviceFound]) /\
     filter is_layer_event (h1 ++ [Print NoDeviceFound]) = filter is_layer_event h) /\
  (service w h devices = Ret (VDict [("devices", VList [])]) ->
     play_for_emotion w emotion h = (Ret false, h ++ [Call devices; Print NoDeviceFound])) /\
  (forall e, service w h devices = Raise e ->
     play_for_emotion w emotion h = (Ret false, h ++ [Call devices; Print NoDeviceFound])).
Proof.
  split; [|split].
  - intros dev h1 Hdev Hf. split.
    + unfold play_for_emotion, bind at 1. rewrite Hdev, Hf. reflexivity.
    + destruct (ensure_device_emits w _ _ _ Hdev) as [evs [-> F]].
      rewrite <- app_assoc. apply filter_rejected.
      rewrite forallb_app. apply andb_true_iff. split; [|reflexivity].
      rewrite forallb_forall in *. intros e He. specialize (F e He).
      destruct e as [[]| |]; try discriminate; reflexivity.
  - intros Hs. unfold play_for_emotion, ensure_device, get_active_device,
      try_except, bind, sp, lift, print, ret.
    rewrite Hs. simpl. now rewrite <- app_assoc.
  - intros e Hs. unfold play_for_emotion, ensure_device, get_active_device,
      try_except, bind, sp, lift, print, ret.
    rewrite Hs. simpl. now rewrite <- app_assoc.
Qed.

(* ================================================================== *)
(** ** The three layers in priority order *)
(* ================================================================== *)

Lemma queue_from_layer1 (w : world) (e : string) (h1 h2 : history) (q1 : list value) :
  _layer_user_recommendations w e h1 = (Ret q1, h2) -> q1 <> [] ->
  multi_layered_queue w e h1 = (Ret q1, h2).
Proof.
  intros H1 Hne. unfold multi_layered_queue, or_else at 1, bind. rewrite H1.
  destruct q1; [contradiction | reflexivity].
Qed.

Lemma queue_after_layer1 (w : world) (e : string) (h1 h2 : history) :
  _layer_user_recommendations w e h1 = (Ret [], h2) ->
  multi_layered_queue w e h1 =
    or_else (_layer_playlist_matches w e) (_layer_global_recommendations w e) h2.
Proof.
  intros H1. unfold multi_layered_queue, or_else at 1, bind at 1. now rewrite H1.
Qed.

Lemma queue_from_layer2 (w : world) (e : string) (h1 h2 h3 : history) (q2 : list value) :
  _layer_user_recommendations w e h1 = (Ret [], h2) ->
  _layer_playlist_matches w e h2 = (Ret q2, h3) -> q2 <> [] ->
  multi_layered_queue w e h1 = (Ret q2, h3).
Proof.
  intros H1 H2 Hne. rewrite (queue_after_layer1 _ _ _ _ H1).
  unfold or_else, bind. rewrite H2. destruct q2; [contradiction | reflexivity].
Qed.

Lemma queue_from_layer3 (w : world) (e : string) (h1 h2 h3 : history) :
  _layer_user_recommendations w e h1 = (Ret [], h2) ->
  _layer_playlist_matches w e h2 = (Ret [], h3) ->
  multi_layered_queue w e h1 = _layer_global_recommendations w e h3.
Proof.
  intros H1 H2. rewrite (queue_after_layer1 _ _ _ _ H1).
  unfold or_else, bind. now rewrite H2.
Qed.

Lemma playback_outcome_emits (w : world) (e : string) (dev : value)
  (q : list value) (h : history) :
  exists evs, snd (playback_outcome w e dev q h) = h ++ evs /\
              forallb is_playback_event evs = true.
Proof.
  unfold playback_outcome. destruct (service w h _); eexists; split; reflexivity.
Qed.

Lemma forallb_disjoint (P Q : event -> bool) (evs : list event) :
  (forall e, P e = true -> Q e = false) ->
  forallb P evs = true -> forallb (fun e => negb (Q e)) evs = true.
Proof.
  intros HPQ F. rewrite forallb_forall in *. intros e He.
  now rewrite (HPQ e (F e He)).
Qed.

Lemma device_event_not_layer (Q : event -> bool) :
  (Q = is_layer2_event \/ Q = is_layer3_event \/ Q = is_layer_event) ->
  forall e, is_device_event e = true -> Q e = false.
Proof.
  intros [->|[->| ->]] [[]| |]; simpl; intros H; try discriminate; reflexivity.
Qed.

Lemma playback_event_not_layer (Q : event -> bool) :
  (Q = is_layer2_event \/ Q = is_layer3_event \/ Q = is_layer_event) ->
  forall e, is_playback_event e = true -> Q e = false.
Proof.
  intros [->|[->| ->]] [[]| |[]]; simpl; intros H; try discriminate; reflexivity.
Qed.

Lemma layer1_event_not_layer2 (e : event) :
  is_layer1_event e = true -> is_layer2_event e = false.
Proof. destruct e as [[]| |[]]; simpl; intros H; try discriminate; reflexivity. Qed.

Lemma layer1_event_not_layer3 (e : event) :
  is_layer1_event e = true -> is_layer3_event e = false.
Proof.
  destruct e as [[]| |[]]; simpl; intros H; try discriminate; try reflexivity.
  apply Nat.eqb_eq in H. now subst.
Qed.

Lemma layer2_event_not_layer3 (e : event) :
  is_layer2_event e = true -> is_layer3_event e = false.
Proof. destruct e as [[]| |[]]; simpl; intros H; try discriminate; reflexivity. Qed.

(** C1: with a device resolved, the queue of the first layer that returns a
    non-empty list is the one submitted.  When Layer 1 returns it, the run
    adds no event of Layer 2 or Layer 3 to the history; when Layer 1 is empty
    and Layer 2 returns it, the run adds no event of Layer 3; when both are
    empty the run continues with Layer 3, whose result decides. *)
Theorem layer_short_circuit (w : world) (emotion : string) (h h1 : history) (dev : value) :
  ensure_device w h = (Ret dev, h1) ->
  truthy dev = true ->
  let e := lower emotion in
  let run := play_for_emotion w emotion h in
  (forall q1 h2,
     _layer_user_recommendations w e h1 = (Ret q1, h2) -> q1 <> [] ->
     run = playback_outcome w e dev q1 h2 /\
     filter is_layer2_event (snd run) = filter is_layer2_event h /\
     filter is_layer3_event (snd run) = filter is_layer3_event h) /\
  (forall h2 q2 h3,
     _layer_user_recommendations w e h1 = (Ret [], h2) ->
     _layer_playlist_matches w e h2 = (Ret q2, h3) -> q2 <> [] ->
     run = playback_outcome w e dev q2 h3 /\
     filter is_layer3_event (snd run) = filter is_layer3_event h) /\
  (forall h2 h3 q3 h4,
     _layer_user_recommendations w e h1 = (Ret [], h2) ->
     _layer_playlist_matches w e h2 = (Ret [], h3) ->
     _layer_global_recommendations w e h3 = (Ret q3, h4) ->
     run = match q3 with
           | [] => (Ret false, h4 ++ [Print NoTracksFound])
           | _ :: _ => playback_outcome w e dev q3 h4
           end).
Proof.
  intros Hdev Ht e run.
  destruct (ensure_device_emits w _ _ _ Hdev) as [ev0 [-> F0]].
  split; [|split].
  - intros q1 h2 H1 Hne.
    assert (Hrun : run = playback_outcome w e dev q1 h2).
    { unfold run. rewrite (play_from_queue w emotion h _ h2 dev q1 Hdev Ht
                             (queue_from_layer1 _ _ _ _ _ H1 Hne)).
      destruct q1; [contradiction | reflexivity]. }
    split; [exact Hrun|]. rewrite Hrun.
    destruct (layer1_emits w _ _ _ _ H1) as [ev1 [-> F1]].
    destruct (playback_outcome_emits w e dev q1 ((h ++ ev0) ++ ev1)) as [ev [-> F]].
    rewrite <- !app_assoc. split; apply filter_rejected; rewrite !forallb_app.
    + rewrite (forallb_disjoint _ _ _ (device_event_not_layer _ (or_introl eq_refl)) F0).
      rewrite (forallb_disjoint _ _ _ layer1_event_not_layer2 F1).
      now rewrite (forallb_disjoint _ _ _
                     (playback_event_not_layer _ (or_introl eq_refl)) F).
    + rewrite (forallb_disjoint _ _ _
                 (device_event_not_layer _ (or_intror (or_introl eq_refl))) F0).
      rewrite (forallb_disjoint _ _ _ layer1_event_not_layer3 F1).
      now rewrite (forallb_disjoint _ _ _
                     (playback_event_not_layer _ (or_intror (or_introl eq_refl))) F).
  - intros h2 q2 h3 H1 H2 Hne.
    assert (Hrun : run = playback_outcome w e dev q2 h3).
    { unfold run. rewrite (play_from_queue w emotion h _ h3 dev q2 Hdev Ht
                             (queue_from_layer2 _ _ _ _ _ _ H1 H2 Hne)).
      destruct q2; [contradiction | reflexivity]. }
    split; [exact Hrun|]. rewrite Hrun.
    destruct (layer1_emits w _ _ _ _ H1) as [ev1 [-> F1]].
    destruct (layer2_emits w _ _ _ _ H2) as [ev2 [-> F2]].
    destruct (playback_outcome_emits w e dev q2 (((h ++ ev0) ++ ev1) ++ ev2))
      as [ev [-> F]].
    rewrite <- !app_assoc. apply filter_rejected. rewrite !forallb_app.
    rewrite (forallb_disjoint _ _ _
               (device_event_not_layer _ (or_intror (or_introl eq_refl))) F0).
    rewrite (forallb_disjoint _ _ _ layer1_event_not_layer3 F1).
    rewrite (forallb_disjoint _ _ _ layer2_event_not_layer3 F2).
    now rewrite (forallb_disjoint _ _ _
                   (playback_event_not_layer _ (or_intror (or_introl eq_refl))) F).
  - intros h2 h3 q3 h4 H1 H2 H3. unfold run.
    apply (play_from_queue w emotion h _ h4 dev q3 Hdev Ht).
    rewrite (queue_from_layer3 w (lower emotion) _ _ _ H1 H2). exact H3.
Qed.

(* ================================================================== *)
(** ** Submission of the queue *)
(* ================================================================== *)

(** C4: a non-empty queue produced by the layers is submitted once, as its
    first 50 URIs in order; when the start call succeeds the report carries
    the length of the whole queue.  A queue of 120 URIs is submitted as 50
    and reported as 120. *)
Theorem submission_cap (w : world) (emotion : string) (h h1 h2 : history)
  (dev : value) (q : list value) :
  ensure_device w h = (Ret dev, h1) ->
  truthy dev = true ->
  multi_layered_queue w (lower emotion) h1 = (Ret q, h2) ->
  q <> [] ->
  let c := start_playback dev (firstn 50 q) in
  (forall v, service w h2 c = Ret v ->
     play_for_emotion w emotion h =
       (Ret true, h2 ++ [Call c; Print (NowPlaying (upper (lower emotion)) (length q))])) /\
  (forall x, service w h2 c = Raise x ->
     play_for_emotion w emotion h =
       (Ret false, h2 ++ [Call c; Print (PlaybackFailed x)])) /\
  (exists l, snd (play_for_emotion w emotion h) = h2 ++ [Call c; Print l]) /\
  length (firstn 50 q) = Nat.min 50 (length q) /\
  (exists rest, q = firstn 50 q ++ rest) /\
  (length q = 120 -> length (firstn 50 q) = 50).
Proof.
  intros Hdev Ht Hq Hne c.
  pose proof (play_from_queue w emotion h h1 h2 dev q Hdev Ht Hq) as Hrun.
  destruct q as [|u q]; [contradiction|].
  unfold playback_outcome in Hrun. fold c in Hrun.
  repeat split.
  - intros v Hv. rewrite Hrun, Hv. reflexivity.
  - intros x Hx. rewrite Hrun, Hx. reflexivity.
  - rewrite Hrun. destruct (service w h2 c); eexists; reflexivity.
  - apply length_firstn.
  - exists (skipn 50 (u :: q)). symmetry. apply firstn_skipn.
  - intros Hlen. rewrite length_firstn, Hlen. reflexivity.
Qed.

(* ================================================================== *)
(** ** Layer 3 *)
(* ================================================================== *)

Lemma genres_not_empty (e : string) : table_get EMOTION_GENRES e ["pop"] <> [].
Proof.
  destruct (in_dec string_dec e closed_set) as [Hin|Hout].
  - exact (proj1 (closed_set_profile e Hin)).
  - rewrite (proj1 (fallback_profile e Hout)). discriminate.
Qed.

Lemma random_choice_run (w : world) (g : list string) (h : history) :
  g <> [] ->
  random_choice w g h =
    (Ret (nth (randbelow w h (length g) mod length g) g "pop"), h ++ [Random]).
Proof.
  intros Hne. destruct g as [|x g]; [contradiction|].
  unfold random_choice. f_equal. f_equal. apply nth_indep.
  apply Nat.mod_upper_bound. discriminate.
Qed.

Lemma layer3_seed_in (w : world) (e : string) (h : history) :
  In (layer3_seed w e h) (table_get EMOTION_GENRES e ["pop"]).
Proof.
  unfold layer3_seed. apply nth_In. apply Nat.mod_upper_bound.
  pose proof (genres_not_empty e) as Hne.
  destruct (table_get EMOTION_GENRES e ["pop"]); [contradiction | discriminate].
Qed.

(** The search fallback and Layer 3 in closed form. *)
Lemma search_fallback_run (w : world) (seed : string) (h : history) :
  try_except
    (bind (sp w (search ("genre:" ++ seed)%string "track" 30))
       (fun result => lift (tr <- getitem result "tracks" ;;
                            items <- getitem tr "items" ;;
                            uris_of items)%result))
    (fun _ => ret []) h =
  (Ret (found (service w h (layer3_search seed))), h ++ [Call (layer3_search seed)]).
Proof.
  unfold try_except, bind, sp, lift, found, layer3_search, ret.
  destruct (service w h _) as [result|y]; cbn [bindR]; [|reflexivity].
  destruct (bindR (getitem result "tracks") _); reflexivity.
Qed.

Lemma layer3_run (w : world) (e : string) (h : history) :
  let seed := layer3_seed w e h in
  let h1 := h ++ [Print Layer3; Random] in
  let h2 := h1 ++ [Call (layer3_request e seed)] in
  _layer_global_recommendations w e h =
    match recommended (service w h1 (layer3_request e seed)) with
    | Some uris => (Ret uris, h2)
    | None => (Ret (found (service w h2 (layer3_search seed))),
               h2 ++ [Call (layer3_search seed)])
    end.
Proof.
  intros seed h1 h2.
  unfold _layer_global_recommendations, bind at 1, print.
  unfold bind at 1, try_except at 1, bind at 1.
  rewrite (random_choice_run w _ _ (genres_not_empty e)).
  fold (layer3_seed w e h). fold seed.
  replace ((h ++ [Print Layer3]) ++ [Random]) with h1
    by (unfold h1; now rewrite <- app_assoc).
  unfold try_except at 1, bind at 1, sp at 1, recommended.
  fold (layer3_request e seed). fold h2.
  destruct (service w h1 _) as [rec|x]; cbn [bindR fst snd].
  - unfold bind at 1, lift at 1.
    destruct (get rec "tracks" (VList [])) as [tracks|x]; cbn [fst snd].
    + destruct (truthy tracks).
      * unfold bind at 1, lift at 1.
        destruct (uris_of tracks) as [uris|x]; cbn [fst snd].
        -- reflexivity.
        -- apply search_fallback_run.
      * apply search_fallback_run.
    + apply search_fallback_run.
  - apply search_fallback_run.
Qed.

(** C7: Layer 3 draws one genre of the emotion and requests
    recommendations with that single genre seed, no artist or track seed,
    limit 50 and the midpoint hints.  Tracks in the answer are returned at
    once.  When the answer lists no track, when the request fails and when
    its answer cannot be read, the layer searches [genre:<seed>] for the same
    seed with limit 30 and returns the URIs found; a failing search gives the
    empty queue. *)
Theorem layer3_fallback_chain (w : world) (e : string) (h : history) :
  let seed := layer3_seed w e h in
  let h1 := h ++ [Print Layer3; Random] in
  let attempt := recommendations [seed] None None 50 (_convert_targets e) in
  let h2 := h1 ++ [Call attempt] in
  let fallback := search ("genre:" ++ seed)%string "track" 30 in
  let searched := (Ret (found (service w h2 fallback)), h2 ++ [Call fallback]) in
  In seed (table_get EMOTION_GENRES e ["pop"]) /\
  (exists q rest, _layer_global_recommendations w e h = (Ret q, h2 ++ rest)) /\
  (forall rec ts uris,
     service w h1 attempt = Ret rec ->
     get rec "tracks" (VList []) = Ret (VList ts) -> ts <> [] ->
     mapR (fun t => getitem t "uri") ts = Ret uris ->
     _layer_global_recommendations w e h = (Ret uris, h2)) /\
  (forall rec tracks,
     service w h1 attempt = Ret rec ->
     get rec "tracks" (VList []) = Ret tracks -> truthy tracks = false ->
     _layer_global_recommendations w e h = searched) /\
  (forall x,
     service w h1 attempt = Raise x ->
     _layer_global_recommendations w e h = searched) /\
  (forall rec x,
     service w h1 attempt = Ret rec ->
     (tracks <- get rec "tracks" (VList []) ;; uris_of tracks)%result = Raise x ->
     _layer_global_recommendations w e h = searched) /\
  (forall result tr items uris,
     service w h2 fallback = Ret result ->
     getitem result "tracks" = Ret tr -> getitem tr "items" = Ret (VList items) ->
     mapR (fun t => getitem t "uri") items = Ret uris ->
     found (service w h2 fallback) = uris) /\
  (forall x, service w h2 fallback = Raise x -> found (service w h2 fallback) = []).
Proof.
  intros seed h1 attempt h2 fallback searched.
  pose proof (layer3_run w e h) as Hrun. cbv zeta in Hrun.
  fold seed in Hrun. fold h1 in Hrun.
  change (layer3_request e seed) with attempt in Hrun.
  change (layer3_search seed) with fallback in Hrun.
  fold h2 in Hrun. fold searched in Hrun.
  split; [apply layer3_seed_in|]. split; [|split; [|split; [|split; [|split; [|split]]]]].
  - rewrite Hrun. destruct (recommended _) as [uris|].
    + exists uris, []. now rewrite app_nil_r.
    + eexists _, _. reflexivity.
  - intros rec ts uris Hs Hg Hne Hu. rewrite Hrun. unfold recommended.
    rewrite Hs. cbn [bindR]. rewrite Hg.
    destruct ts as [|t ts]; [contradiction|].
    cbn [truthy]. unfold uris_of. cbn [iter bindR]. now rewrite Hu.
  - intros rec tracks Hs Hg Hf. rewrite Hrun. unfold recommended.
    rewrite Hs. cbn [bindR]. now rewrite Hg, Hf.
  - intros x Hs. rewrite Hrun. unfold recommended. now rewrite Hs.
  - intros rec x Hs Hbad. rewrite Hrun. unfold recommended.
    rewrite Hs. cbn [bindR].
    destruct (get rec "tracks" (VList [])) as [tracks|y]; [|reflexivity].
    cbn [bindR] in Hbad. rewrite Hbad. now destruct (truthy tracks).
  - intros result tr items uris Hs Ht Hi Hu. unfold found.
    rewrite Hs. cbn [bindR]. rewrite Ht. cbn [bindR]. rewrite Hi. cbn [bindR].
    unfold uris_of. cbn [iter bindR]. now rewrite Hu.
  - intros x Hs. unfold found. now rewrite Hs.
Qed.

(* ================================================================== *)
(** ** Containment of failures *)
(* ================================================================== *)

Lemma answered_app (w : world) (evs1 evs2 : list event) (h : history) :
  answered w h (evs1 ++ evs2) = answered w h evs1 && answered w (h ++ evs1) evs2.
Proof.
  revert h. induction evs1 as [|ev evs1 IH]; intros h; simpl.
  - now rewrite app_nil_r.
  - rewrite IH, <- app_assoc, andb_assoc. reflexivity.
Qed.

Lemma clean_ret (w : world) {A : Type} (a : A) : clean w (ret a).
Proof.
  intros h b h' E. injection E as <- <-. exists []. now rewrite app_nil_r.
Qed.

Lemma clean_raise (w : world) {A : Type} (e : exn) : clean w (@raise A e).
Proof. intros h b h' E. discriminate E. Qed.

Lemma clean_lift (w : world) {A : Type} (x : result A) : clean w (lift x).
Proof.
  intros h b h' E. injection E as -> <-. exists []. now rewrite app_nil_r.
Qed.

Lemma clean_print (w : world) (l : line) : clean w (print l).
Proof. intros h b h' E. injection E as <- <-. now exists [Print l]. Qed.

Lemma clean_sp (w : world) (c : call) : clean w (sp w c).
Proof.
  intros h b h' E. unfold sp in E. injection E as Hs <-.
  exists [Call c]. simpl. now rewrite Hs.
Qed.

Lemma clean_random_choice (w : world) (seq : list string) :
  clean w (random_choice w seq).
Proof.
  destruct seq as [|x seq]; [apply clean_raise|].
  intros h b h' E. injection E as <- <-. now exists [Random].
Qed.

Lemma clean_bind (w : world) {A B : Type} (m : M A) (k : A -> M B) :
  clean w m -> (forall a, clean w (k a)) -> clean w (bind m k).
Proof.
  intros Hm Hk h b h' E. unfold bind in E.
  destruct (m h) as [[a|e] h1] eqn:E1; [|discriminate E].
  destruct (Hm _ _ _ E1) as [ev1 [-> F1]].
  destruct (Hk a _ _ _ E) as [ev2 [-> F2]].
  exists (ev1 ++ ev2). rewrite app_assoc, answered_app, F1, F2. now split.
Qed.

Lemma clean_for_each (w : world) {A B : Type} (l : list A) (body : B -> A -> M B) :
  (forall acc x, clean w (body acc x)) -> forall acc, clean w (for_each l acc body).
Proof.
  intros Hb. induction l as [|x l IH]; intros acc; simpl.
  - apply clean_ret.
  - apply clean_bind; [apply Hb | exact IH].
Qed.

Ltac clean_steps :=
  repeat first
    [ apply clean_ret | apply clean_raise | apply clean_lift
    | apply clean_print | apply clean_sp | apply clean_random_choice
    | apply clean_bind | apply clean_for_each
    | match goal with
      | |- forall _, _ => intro
      | |- clean _ (if ?c then _ else _) => destruct c
      | |- clean _ (match ?x with _ => _ end) => destruct x
      end ].

Ltac returns_steps :=
  repeat first
    [ apply returns_ret | apply returns_print | apply returns_try
    | apply returns_or_else | apply returns_bind
    | match goal with
      | |- forall _, _ => intro
      | |- returns (if ?c then _ else _) => destruct c
      | |- returns (match ?x with _ => _ end) => destruct x
      end ].

(** A layer of the shape [print banner; try: body  except: return []]:
    it returns a list, and the empty one whenever a service call of [body]
    raised. *)
Lemma guarded_layer (w : world) (P : event -> bool) (banner : line)
  (body : M (list value)) (h : history) :
  clean w body -> emits P body ->
  exists q evs,
    bind (print banner) (fun _ => try_except body (fun _ => ret [])) h
      = (Ret q, h ++ evs) /\
    (answered w h evs = false -> q = []).
Proof.
  intros Hc He. unfold bind, print, try_except.
  destruct (body (h ++ [Print banner])) as [[q|x] h'] eqn:E.
  - destruct (Hc _ _ _ E) as [evs [-> F]].
    exists q, ([Print banner] ++ evs). split; [now rewrite <- app_assoc|].
    rewrite answered_app, F. discriminate.
  - destruct (He _ _ _ E) as [evs [-> _]].
    exists [], ([Print banner] ++ evs). split; [now rewrite <- app_assoc|].
    reflexivity.
Qed.

Lemma layer1_contains (w : world) (e : string) (h : history) :
  exists q evs, _layer_user_recommendations w e h = (Ret q, h ++ evs) /\
                (answered w h evs = false -> q = []).
Proof.
  unfold _layer_user_recommendations.
  apply (guarded_layer w (fun _ => true)); [clean_steps | emits_steps].
Qed.

Lemma layer2_contains (w : world) (e : string) (h : history) :
  exists q evs, _layer_playlist_matches w e h = (Ret q, h ++ evs) /\
                (answered w h evs = false -> q = []).
Proof.
  unfold _layer_playlist_matches.
  apply (guarded_layer w (fun _ => true));
    [unfold match_playlist; clean_steps | unfold match_playlist; emits_steps].
Qed.

Lemma layer3_contains (w : world) (e : string) (h : history) :
  exists q evs, _layer_global_recommendations w e h = (Ret q, h ++ evs) /\
                (forall pre c x, evs = pre ++ [Call c] ->
                                 service w (h ++ pre) c = Raise x -> q = []).
Proof.
  rewrite layer3_run. cbv zeta.
  set (seed := layer3_seed w e h).
  destruct (recommended _) as [uris|] eqn:Hr.
  - exists uris, [Print Layer3; Random; Call (layer3_request e seed)].
    split; [now rewrite <- app_assoc|].
    intros pre c x Hev Hs.
    change [Print Layer3; Random; Call (layer3_request e seed)]
      with ([Print Layer3; Random] ++ [Call (layer3_request e seed)]) in Hev.
    apply app_inj_tail in Hev as [<- Hc]. injection Hc as <-.
    unfold recommended in Hr. rewrite Hs in Hr. discriminate Hr.
  - exists (found (service w ((h ++ [Print Layer3; Random]) ++
                               [Call (layer3_request e seed)]) (layer3_search seed))),
           [Print Layer3; Random; Call (layer3_request e seed);
            Call (layer3_search seed)].
    split; [now rewrite <- !app_assoc|].
    intros pre c x Hev Hs.
    change [Print Layer3; Random; Call (layer3_request e seed); Call (layer3_search seed)]
      with ([Print Layer3; Random; Call (layer3_request e seed)]
              ++ [Call (layer3_search seed)]) in Hev.
    apply app_inj_tail in Hev as [<- Hc]. injection Hc as <-.
    replace ((h ++ [Print Layer3; Random]) ++ [Call (layer3_request e seed)])
      with (h ++ [Print Layer3; Random; Call (layer3_request e seed)])
      by now rewrite <- app_assoc.
    unfold found. now rewrite Hs.
Qed.

Lemma get_active_device_returns (w : world) : returns (get_active_device w).
Proof. unfold get_active_device. returns_steps. Qed.

Lemma ensure_device_returns (w : world) : returns (ensure_device w).
Proof.
  unfold ensure_device. apply returns_bind; [apply get_active_device_returns|].
  returns_steps.
Qed.

Lemma layer1_returns (w : world) (e : string) : returns (_layer_user_recommendations w e).
Proof. unfold _layer_user_recommendations. returns_steps. Qed.

Lemma layer2_returns (w : world) (e : string) : returns (_layer_playlist_matches w e).
Proof. unfold _layer_playlist_matches. returns_steps. Qed.

Lemma layer3_returns (w : world) (e : string) : returns (_layer_global_recommendations w e).
Proof.
  intros h. destruct (layer3_contains w e h) as [q [evs [E _]]]. eauto.
Qed.

Lemma play_for_emotion_returns (w : world) (emotion : string) :
  returns (play_for_emotion w emotion).
Proof.
  unfold play_for_emotion, multi_layered_queue.
  apply returns_bind; [apply ensure_device_returns|]. intros device.
  destruct (negb (truthy device)); [returns_steps|].
  apply returns_bind.
  - apply returns_or_else; [apply layer1_returns|].
    apply returns_or_else; [apply layer2_returns | apply layer3_returns].
  - returns_steps.
Qed.

Lemma layer3_request_failure (w : world) (e : string) (h : history) (x : exn) :
  let seed := layer3_seed w e h in
  let h1 := h ++ [Print Layer3; Random] in
  let h2 := h1 ++ [Call (layer3_request e seed)] in
  service w h1 (layer3_request e seed) = Raise x ->
  _layer_global_recommendations w e h =
    (Ret (found (service w h2 (layer3_search seed))), h2 ++ [Call (layer3_search seed)]).
Proof.
  intros seed h1 h2 Hs. rewrite layer3_run. cbv zeta. fold seed. fold h1.
  unfold recommended. now rewrite Hs.
Qed.

(** C9, as the code has it: from every history and in every world
    [play_for_emotion] returns a boolean (writing to standard output is
    taken to succeed); so does device resolution return a value and each
    layer a list, so no exception crosses a layer boundary.  A service call
    that raises inside Layer 1 or Layer 2 makes that layer return the empty
    list.  In Layer 3 a raising recommendation request is not turned into
    the empty list: the layer goes on to the search and returns what the
    search finds; a raising search gives the empty list. *)
Theorem failures_contained (w : world) (emotion : string) (h : history) :
  (exists b h', play_for_emotion w emotion h = (Ret b, h')) /\
  (exists dev h', ensure_device w h = (Ret dev, h')) /\
  (exists q evs, _layer_user_recommendations w emotion h = (Ret q, h ++ evs) /\
                 (answered w h evs = false -> q = [])) /\
  (exists q evs, _layer_playlist_matches w emotion h = (Ret q, h ++ evs) /\
                 (answered w h evs = false -> q = [])) /\
  (exists q evs, _layer_global_recommendations w emotion h = (Ret q, h ++ evs) /\
                 (forall pre c x, evs = pre ++ [Call c] ->
                                  service w (h ++ pre) c = Raise x -> q = [])) /\
  (forall x,
     let seed := layer3_seed w emotion h in
     let h1 := h ++ [Print Layer3; Random] in
     let h2 := h1 ++ [Call (layer3_request emotion seed)] in
     service w h1 (layer3_request emotion seed) = Raise x ->
     _layer_global_recommendations w emotion h =
       (Ret (found (service w h2 (layer3_search seed))),
        h2 ++ [Call (layer3_search seed)])).
Proof.
  split; [apply play_for_emotion_returns|].
  split; [apply ensure_device_returns|].
  split; [apply layer1_contains|].
  split; [apply layer2_contains|].
  split; [apply layer3_contains|].
  intros x. apply layer3_request_failure.
Qed.

(** C9 as first stated fails in Layer 3: a raising recommendation request
    does not give the empty queue when the search answers. *)
Lemma layer3_failure_not_empty :
  ~ (forall (w : world) (e : string) (h : history) (q : list value) (evs : list event),
       _layer_global_recommendations w e h = (Ret q, h ++ evs) ->
       answered w h evs = false -> q = []).
Proof.
  intros H.
  assert (Hq : [VStr "spotify:track:0"; VStr "spotify:track:1"; VStr "spotify:track:2"]
               = @nil value).
  { apply (H search_only "sad" []
             [VStr "spotify:track:0"; VStr "spotify:track:1"; VStr "spotify:track:2"]
             [Print Layer3; Random;
              Call (recommendations ["blues"] None None 50 (_convert_targets "sad"));
              Call (search "genre:blues" "track" 30)]).
    - vm_compute. reflexivity.
    - vm_compute. reflexivity. }
  discriminate Hq.
Qed.

(* ================================================================== *)
(** ** Layer 2 on a playlist with a null track *)
(* ================================================================== *)

(** The loop over the zip appends, in order, the URI of the item of every
    pair whose feature map passes: which item a feature map is paired with
    decides which track it is judged for. *)
Lemma match_pairs_accumulates (target : list (string * (float * float)))
  (pairs : list (value * value)) (matched : list value) :
  match_pairs target pairs matched =
    (kept <- mapR (judged target) pairs ;; Ret (matched ++ concat kept))%result.
Proof.
  revert matched. induction pairs as [|[feat item] pairs IH]; intros matched.
  - simpl. now rewrite app_nil_r.
  - cbn [match_pairs mapR judged].
    destruct (if truthy feat then _match_features feat target else Ret false)
      as [[|]|x]; cbn [bindR].
    + destruct (getitem item "track") as [tr|x]; cbn [bindR]; [|reflexivity].
      destruct (getitem tr "uri") as [uri|x]; cbn [bindR]; [|reflexivity].
      rewrite IH. destruct (mapR (judged target) pairs); cbn [bindR concat].
      * now rewrite <- app_assoc.
      * reflexivity.
    + rewrite IH. destruct (mapR (judged target) pairs); reflexivity.
    + reflexivity.
Qed.

(** C2 evaluated: in a playlist [null, A, B] track A fails the "happy"
    intervals on its own features and track B passes them, yet Layer 2
    returns A and not B: the zip pairs the features of A with the null item
    and the features of B with A.  Without the null item the layer returns
    B; with [null, B] the features of B are paired with the null item, the
    subscript raises and the layer returns the empty list. *)
Theorem playlist_zip_misaligned :
  let target := table_get EMOTION_TARGETS "happy" [] in
  _match_features (features_for (VStr "A")) target = Ret false /\
  _match_features (features_for (VStr "B")) target = Ret true /\
  fst (_layer_playlist_matches (library [null_item; item "A"; item "B"]) "happy" [])
    = Ret [VStr "spotify:track:A"] /\
  fst (_layer_playlist_matches (library [item "A"; item "B"]) "happy" [])
    = Ret [VStr "spotify:track:B"] /\
  fst (_layer_playlist_matches (library [null_item; item "B"]) "happy" [])
    = Ret [].
Proof. vm_compute. repeat split. Qed.

(* ================================================================== *)
(** ** The statements at concrete worlds *)
(* ================================================================== *)

Lemma no_device_no_layer_witness :
  ensure_device offline [] = (Ret VNone, [Call devices]) /\
  truthy VNone = false /\
  play_for_emotion offline "happy" [] = (Ret false, [Call devices; Print NoDeviceFound]) /\
  filter is_layer_event [Call devices; Print NoDeviceFound] = [].
Proof.
  assert (Hdev : ensure_device offline [] = (Ret VNone, [Call devices]))
    by (vm_compute; reflexivity).
  assert (Hf : truthy VNone = false) by reflexivity.
  split; [exact Hdev|]. split; [exact Hf|].
  exact (proj1 (no_device_no_layer offline "happy" []) VNone [Call devices] Hdev Hf).
Defined.

Lemma layer_short_circuit_witness :
  let w := listening 3 in
  let h1 := [Call devices; Call (transfer_playback (VStr "laptop"))] in
  ensure_device w [] = (Ret (VStr "laptop"), h1) /\
  truthy (VStr "laptop") = true /\
  fst (_layer_user_recommendations w "happy" h1)
    = Ret [VStr "spotify:track:0"; VStr "spotify:track:1"; VStr "spotify:track:2"] /\
  fst (play_for_emotion w "Happy" []) = Ret true /\
  filter is_layer2_event (snd (play_for_emotion w "Happy" [])) = [] /\
  filter is_layer3_event (snd (play_for_emotion w "Happy" [])) = [].
Proof.
  intros w h1.
  assert (Hdev : ensure_device w [] = (Ret (VStr "laptop"), h1))
    by (vm_compute; reflexivity).
  assert (Ht : truthy (VStr "laptop") = true) by reflexivity.
  set (q1 := [VStr "spotify:track:0"; VStr "spotify:track:1"; VStr "spotify:track:2"]).
  set (h2 := snd (_layer_user_recommendations w "happy" h1)).
  assert (H1 : _layer_user_recommendations w (lower "Happy") h1 = (Ret q1, h2))
    by (vm_compute; reflexivity).
  assert (Hne : q1 <> []) by discriminate.
  destruct (proj1 (layer_short_circuit w "Happy" [] h1 (VStr "laptop") Hdev Ht)
              q1 h2 H1 Hne) as [Hrun [H2 H3]].
  split; [exact Hdev|]. split; [exact Ht|]. split; [vm_compute; reflexivity|].
  split; [rewrite Hrun; vm_compute; reflexivity|].
  split; [exact H2 | exact H3].
Defined.

Lemma submission_cap_witness :
  let w := listening 120 in
  let h1 := [Call devices; Call (transfer_playback (VStr "laptop"))] in
  let h2 := snd (multi_layered_queue w "happy" h1) in
  let q := map (fun t => match getitem t "uri" with Ret u => u | Raise _ => VNone end)
               (numbered 120) in
  ensure_device w [] = (Ret (VStr "laptop"), h1) /\
  multi_layered_queue w "happy" h1 = (Ret q, h2) /\
  length q = 120 /\
  play_for_emotion w "Happy" [] =
    (Ret true, h2 ++ [Call (start_playback (VStr "laptop") (firstn 50 q));
                      Print (NowPlaying "HAPPY" 120)]) /\
  length (firstn 50 q) = 50.
Proof.
  intros w h1 h2 q.
  assert (Hdev : ensure_device w [] = (Ret (VStr "laptop"), h1))
    by (vm_compute; reflexivity).
  assert (Ht : truthy (VStr "laptop") = true) by reflexivity.
  assert (Hq : multi_layered_queue w (lower "Happy") h1 = (Ret q, h2))
    by (vm_compute; reflexivity).
  assert (Hne : q <> []) by discriminate.
  assert (Hlen : length q = 120) by (vm_compute; reflexivity).
  destruct (submission_cap w "Happy" [] h1 h2 (VStr "laptop") q Hdev Ht Hq Hne)
    as [Hok [_ [_ [_ [_ H50]]]]].
  split; [exact Hdev|]. split; [exact Hq|]. split; [exact Hlen|].
  split; [exact (Hok VNone eq_refl) | exact (H50 Hlen)].
Defined.

Lemma layer3_fallback_chain_witness :
  service search_only
    [Print Layer3; Random] (recommendations ["blues"] None None 50 (_convert_targets "sad"))
    = Raise (ServiceError 429) /\
  _layer_global_recommendations search_only "sad" [] =
    (Ret [VStr "spotify:track:0"; VStr "spotify:track:1"; VStr "spotify:track:2"],
     [Print Layer3; Random;
      Call (recommendations ["blues"] None None 50 (_convert_targets "sad"));
      Call (search "genre:blues" "track" 30)]).
Proof.
  split; [reflexivity|].
  exact (proj1 (proj2 (proj2 (proj2 (proj2 (layer3_fallback_chain search_only "sad" [])))))
           (ServiceError 429) eq_refl).
Defined.

Lemma failures_contained_witness :
  answered offline [] [Print Layer1; Call (current_user_top_artists 5)] = false /\
  _layer_user_recommendations offline "angry" [] =
    (Ret [], [Print Layer1; Call (current_user_top_artists 5)]) /\
  service search_only [Print Layer3; Random]
    (layer3_request "sad" (layer3_seed search_only "sad" [])) = Raise (ServiceError 429) /\
  _layer_global_recommendations search_only "sad" [] =
    (Ret [VStr "spotify:track:0"; VStr "spotify:track:1"; VStr "spotify:track:2"],
     [Print Layer3; Random;
      Call (recommendations ["blues"] None None 50 (_convert_targets "sad"));
      Call (search "genre:blues" "track" 30)]).
Proof.
  assert (Ha : answered offline [] [Print Layer1; Call (current_user_top_artists 5)] = false)
    by reflexivity.
  assert (Hs : service search_only [Print Layer3; Random]
                 (layer3_request "sad" (layer3_seed search_only "sad" []))
               = Raise (ServiceError 429)) by reflexivity.
  split; [exact Ha|]. split; [|split; [exact Hs|]].
  - destruct (proj1 (proj2 (proj2 (failures_contained offline "angry" []))))
      as [q [evs [Hrun Hempty]]].
    assert (Hevs : evs = [Print Layer1; Call (current_user_top_artists 5)]).
    { vm_compute in Hrun. injection Hrun as _ Hevs. symmetry. exact Hevs. }
    rewrite Hevs in Hempty, Hrun. rewrite (Hempty Ha) in Hrun. exact Hrun.
  - exact (proj2 (proj2 (proj2 (proj2 (proj2 (failures_contained search_only "sad" [])))))
             (ServiceError 429) Hs).
Defined.

(* ================================================================== *)
(** ** The emotion aggregator *)
(* ================================================================== *)

Section AggregatorFacts.

Variable frame : Type.

Lemma sample_collects (s : sensors frame) (passes : list nat) (acc : list string) :
  sample s passes acc =
    acc ++ flat_map (fun i => match label_at s i with Some l => [l] | None => [] end) passes.
Proof.
  revert acc. induction passes as [|i passes IH]; intros acc; simpl.
  - now rewrite app_nil_r.
  - unfold label_at. destruct (get_frame s i) as [ok f]. destruct ok; simpl.
    + destruct (analyze s i f) as [data|]; simpl; rewrite IH.
      * now rewrite <- app_assoc.
      * reflexivity.
    + apply IH.
Qed.

Lemma counter_add_keys (c : list (string * nat)) (x : string) :
  keys (counter_add c x) = if in_dec string_dec x (keys c) then keys c else keys c ++ [x].
Proof.
  induction c as [|[k n] c IH]; simpl.
  - reflexivity.
  - destruct (String.eqb_spec k x) as [->|Hne]; simpl.
    + destruct (string_dec x x); [|contradiction].
      destruct (in_dec string_dec x (keys c)); reflexivity.
    + rewrite IH. destruct (string_dec k x); [contradiction|].
      destruct (in_dec string_dec x (keys c)); reflexivity.
Qed.

Lemma counter_add_tally (c : list (string * nat)) (x y : string) :
  tally (counter_add c x) y = if string_dec x y then S (tally c y) else tally c y.
Proof.
  unfold tally. induction c as [|[k n] c IH]; simpl.
  - destruct (String.eqb_spec x y); destruct (string_dec x y); congruence.
  - destruct (String.eqb_spec k x) as [->|Hne]; simpl.
    + destruct (String.eqb_spec x y); destruct (string_dec x y); congruence.
    + destruct (String.eqb_spec k y) as [->|Hne'].
      * destruct (string_dec x y); congruence.
      * exact IH.
Qed.

Lemma seen_before_app (a b : string) (l l' : list string) :
  seen_before a b l -> seen_before a b (l ++ l').
Proof.
  intros [pre [post [-> Hn]]]. exists pre, (post ++ l').
  split; [now rewrite <- app_assoc|exact Hn].
Qed.

Lemma counts_of_nil : counts_of [] [].
Proof.
  split.
  - constructor.
  - reflexivity.
  - reflexivity.
  - intros [|? ?] ? ? ? H; discriminate H.
Qed.

Lemma count_app1 (x y : string) (l : list string) :
  count y (l ++ [x]) = if string_dec x y then S (count y l) else count y l.
Proof.
  unfold count. rewrite count_occ_app. simpl.
  destruct (string_dec x y); lia.
Qed.

Lemma counts_of_step (c : list (string * nat)) (l : list string) (x : string) :
  counts_of c l -> counts_of (counter_add c x) (l ++ [x]).
Proof.
  intros [Hn Ht Hk Ho]. split.
  - rewrite counter_add_keys.
    destruct (in_dec string_dec x (keys c)) as [Hin|Hout]; [exact Hn|].
    apply NoDup_app; [exact Hn | repeat constructor; intros [] |].
    intros y Hy [<-|[]]. contradiction.
  - intros y. rewrite counter_add_tally, count_app1, Ht. reflexivity.
  - intros y. rewrite counter_add_keys, in_app_iff.
    destruct (in_dec string_dec x (keys c)) as [Hin|Hout].
    + rewrite Hk. split; [now left|]. intros [H|[<-|[]]]; [exact H|]. now apply Hk.
    + rewrite in_app_iff, Hk. reflexivity.
  - intros k1 a k2 b Hkeys Hb. rewrite counter_add_keys in Hkeys.
    destruct (in_dec string_dec x (keys c)) as [Hin|Hout].
    + apply seen_before_app. exact (Ho _ _ _ _ Hkeys Hb).
    + induction k2 as [|b' k2 _] using rev_ind; [contradiction|].
      rewrite app_comm_cons, app_assoc in Hkeys.
      apply app_inj_tail in Hkeys as [Hkeys <-].
      apply in_app_iff in Hb as [Hb|[<-|[]]].
      * apply seen_before_app. exact (Ho _ _ _ _ Hkeys Hb).
      * assert (Ha : In a l) by (apply Hk; rewrite Hkeys; apply in_elt).
        apply in_split in Ha as [pre [post ->]].
        exists pre, (post ++ [x]). split; [now rewrite <- app_assoc|].
        intros Hp. apply Hout, Hk. apply in_app_iff. now left.
Qed.

Lemma counts_of_fold (l' : list string) (c : list (string * nat)) (l : list string) :
  counts_of c l -> counts_of (fold_left counter_add l' c) (l ++ l').
Proof.
  revert c l. induction l' as [|x l' IH]; intros c l H; simpl.
  - now rewrite app_nil_r.
  - replace (l ++ x :: l') with ((l ++ [x]) ++ l') by now rewrite <- app_assoc.
    apply IH, counts_of_step, H.
Qed.

Lemma counts_of_Counter (l : list string) : counts_of (Counter l) l.
Proof. exact (counts_of_fold l [] [] counts_of_nil). Qed.

Lemma nodup_lookup (c : list (string * nat)) (k : string) (n : nat) :
  NoDup (keys c) -> In (k, n) c -> lookup k c = Some n.
Proof.
  induction c as [|[k' n'] c IH]; simpl; intros Hn Hin; [contradiction|].
  inversion Hn as [|? ? Hout Hn']; subst.
  destruct Hin as [E|Hin].
  - injection E as -> ->. now rewrite String.eqb_refl.
  - destruct (String.eqb_spec k' k) as [->|Hne]; [|now apply IH].
    exfalso. apply Hout. unfold keys. change k with (fst (k, n)). now apply in_map.
Qed.

(** The item [max] returns: a largest one, and every item in front of it is
    strictly smaller. *)
Lemma max_count_first (items : list (string * nat)) (best : string * nat) :
  exists i1 i2,
    best :: items = i1 ++ max_count best items :: i2 /\
    (forall kv, In kv i1 -> snd kv < snd (max_count best items)) /\
    (forall kv, In kv i2 -> snd kv <= snd (max_count best items)).
Proof.
  revert best. induction items as [|kv items IH]; intros best; simpl.
  - exists [], []. repeat split; intros ? [].
  - destruct (Nat.ltb_spec (snd best) (snd kv)) as [Hlt|Hge].
    + destruct (IH kv) as [i1 [i2 [E [H1 H2]]]].
      exists (best :: i1), i2. rewrite E. repeat split; [|exact H2].
      intros x [<-|Hx]; [|now apply H1].
      destruct i1 as [|y i1].
      * injection E as <- _. exact Hlt.
      * injection E as <- _. pose proof (H1 kv (or_introl eq_refl)). lia.
    + destruct (IH best) as [i1 [i2 [E [H1 H2]]]].
      destruct i1 as [|y i1].
      * injection E as E1 E2. rewrite <- E1 in H2 |- *.
        exists [], (kv :: items). split; [reflexivity|]. split; [intros ? []|].
        intros x [<-|Hx]; [exact Hge | apply H2; rewrite <- E2; exact Hx].
      * injection E as <- E2. exists (best :: kv :: i1), i2.
        split; [simpl; do 2 f_equal; exact E2|]. split; [|exact H2].
        intros x [<-|[<-|Hx]].
        -- apply H1. now left.
        -- pose proof (H1 best (or_introl eq_refl)). lia.
        -- apply H1. now right.
Qed.

Lemma detect_reads_successes (s : sensors frame) :
  detect_dominant_emotion s =
    match successes s with
    | [] => Ret None
    | _ :: _ => match most_common_1 (Counter (successes s)) with
                | kv :: _ => Ret (Some (fst kv))
                | [] => Raise IndexError
                end
    end.
Proof.
  unfold detect_dominant_emotion. rewrite sample_collects. reflexivity.
Qed.

Lemma count_pos_in (x : string) (l : list string) : In x l <-> 0 < count x l.
Proof. apply count_occ_In. Qed.

(** The winner of a non-empty list of labels. *)
Lemma most_common_mode (l : list string) :
  l <> [] ->
  exists w rest,
    most_common_1 (Counter l) = (w, count w l) :: rest /\
    In w l /\
    (forall x, count x l <= count w l) /\
    (forall x, x <> w -> count x l = count w l -> seen_before w x l).
Proof.
  intros Hne. destruct (counts_of_Counter l) as [Hn Ht Hk Ho].
  destruct (Counter l) as [|kv c] eqn:Ec.
  { exfalso. destruct l as [|x l]; [contradiction|].
    apply (proj2 (Hk x)). now left. }
  destruct (max_count_first c kv) as [i1 [i2 [E [H1 H2]]]].
  set (r := max_count kv c) in *. destruct r as [w n] eqn:Er.
  assert (Hin : In (w, n) (kv :: c)) by (rewrite E; apply in_elt).
  assert (Hw : count w l = n).
  { rewrite <- Ht. unfold tally. now rewrite (nodup_lookup _ _ _ Hn Hin). }
  assert (Hmax : forall x, count x l <= n).
  { intros x. destruct (in_dec string_dec x l) as [Hx|Hx].
    - apply Hk in Hx. unfold keys in Hx. apply in_map_iff in Hx as [[x' m] [Hfst Hx]].
      simpl in Hfst. subst x'.
      rewrite <- Ht. unfold tally. rewrite (nodup_lookup _ _ _ Hn Hx).
      rewrite E in Hx. apply in_app_iff in Hx as [Hx|[Hx|Hx]].
      + apply H1 in Hx. simpl in Hx. lia.
      + injection Hx as _ <-. lia.
      + apply H2 in Hx. exact Hx.
    - apply count_occ_not_In with (eq_dec := string_dec) in Hx.
      unfold count. rewrite Hx. lia. }
  exists w, []. simpl. fold r. rewrite Er, Hw. split; [reflexivity|].
  split; [|split].
  - apply Hk. unfold keys. change w with (fst (w, n)). now apply in_map.
  - exact Hmax.
  - intros x Hxw Hc.
    assert (Hx : In x l).
    { apply (proj2 (count_pos_in x l)). rewrite Hc, <- Hw.
      apply (proj1 (count_pos_in w l)), Hk.
      unfold keys. change w with (fst (w, n)). now apply in_map. }
    apply Hk in Hx. unfold keys in Hx. apply in_map_iff in Hx as [[x' m] [Hfst Hx]].
    simpl in Hfst. subst x'.
    assert (Hm : m = n).
    { rewrite <- Hc, <- Ht. unfold tally. now rewrite (nodup_lookup _ _ _ Hn Hx). }
    subst m. rewrite E in Hx. apply in_app_iff in Hx as [Hx|[Hx|Hx]].
    + apply H1 in Hx. simpl in Hx. lia.
    + injection Hx as Hx. congruence.
    + apply (Ho (keys i1) w (keys i2) x).
      * unfold keys. rewrite E, map_app. reflexivity.
      * unfold keys. change x with (fst (x, n)). now apply in_map.
Qed.

Lemma successes_bounded (s : sensors frame) : length (successes s) <= EMOTION_FRAMES.
Proof.
  unfold successes. rewrite <- (length_seq EMOTION_FRAMES 0) at 2.
  induction (seq 0 EMOTION_FRAMES) as [|i l IH]; simpl; [lia|].
  rewrite length_app. destruct (label_at s i); simpl; lia.
Qed.

Lemma count_two (x y : string) (l : list string) :
  x <> y -> count x l + count y l <= length l.
Proof.
  intros Hne. unfold count. induction l as [|z l IH]; simpl; [lia|].
  destruct (string_dec z x); destruct (string_dec z y); subst; try contradiction; lia.
Qed.

(** C6: with no successful classification the aggregator returns [None];
    otherwise it returns a label that occurs among the successes at least as
    often as every other label and that was seen before every other label
    occurring as often.  Three "happy" and two "sad" give "happy". *)
Theorem dominant_emotion_mode (s : sensors frame) :
  let labels := successes s in
  (labels = [] -> detect_dominant_emotion s = Ret None) /\
  (labels <> [] ->
     exists l, detect_dominant_emotion s = Ret (Some l) /\
               In l labels /\
               (forall x, count x labels <= count l labels) /\
               (forall x, x <> l -> count x labels = count l labels ->
                          seen_before l x labels)) /\
  (count "happy" labels = 3 -> count "sad" labels = 2 ->
     detect_dominant_emotion s = Ret (Some "happy")).
Proof.
  intros labels.
  assert (Hmode : labels <> [] ->
     exists l, detect_dominant_emotion s = Ret (Some l) /\
               In l labels /\
               (forall x, count x labels <= count l labels) /\
               (forall x, x <> l -> count x labels = count l labels ->
                          seen_before l x labels)).
  { intros Hne. destruct (most_common_mode labels Hne) as [w [rest [E H]]].
    exists w. split; [|exact H].
    rewrite detect_reads_successes. fold labels. rewrite E.
    destruct labels; [contradiction | reflexivity]. }
  split; [|split].
  - intros E. rewrite detect_reads_successes. fold labels. now rewrite E.
  - exact Hmode.
  - intros Hh Hs.
    assert (Hne : labels <> []).
    { intros E. rewrite E in Hh. discriminate Hh. }
    destruct (Hmode Hne) as [l [Hrun [_ [Hmax _]]]].
    rewrite Hrun. destruct (string_dec l "happy") as [->|Hl]; [reflexivity|].
    exfalso. pose proof (Hmax "happy") as H3.
    pose proof (count_two l "happy" labels Hl) as H5.
    pose proof (successes_bounded s) as Hb. fold labels in Hb.
    unfold EMOTION_FRAMES in Hb. lia.
Qed.

End AggregatorFacts.

Lemma dominant_emotion_mode_witness :
  successes (recording [Heard "sad"; Heard "happy"; NoFrame; Heard "happy"; Heard "sad"])
    = ["sad"; "happy"; "happy"; "sad"] /\
  detect_dominant_emotion
    (recording [Heard "sad"; Heard "happy"; NoFrame; Heard "happy"; Heard "sad"])
    = Ret (Some "sad") /\
  detect_dominant_emotion
    (recording [Heard "sad"; Heard "happy"; Heard "happy"; Heard "happy"; Heard "sad"])
    = Ret (Some "happy") /\
  detect_dominant_emotion (recording [NoFrame; NoFace; NoFace; NoFrame; NoFace])
    = Ret None.
Proof.
  split; [reflexivity|]. split; [|split].
  - destruct (proj1 (proj2 (dominant_emotion_mode nat
        (recording [Heard "sad"; Heard "happy"; NoFrame; Heard "happy"; Heard "sad"]))))
      as [l [Hrun _]]; [discriminate|].
    rewrite Hrun. vm_compute in Hrun. symmetry. exact Hrun.
  - apply (proj2 (proj2 (dominant_emotion_mode nat
        (recording [Heard "sad"; Heard "happy"; Heard "happy"; Heard "happy"; Heard "sad"]))));
      reflexivity.
  - apply (proj1 (dominant_emotion_mode nat
        (recording [NoFrame; NoFace; NoFace; NoFrame; NoFace]))).
    reflexivity.
Defined.

(* ================================================================== *)
(** ** Device resolution on a well-formed device list *)
(* ================================================================== *)

Lemma device_entry_truthy (d : value) : device_entry d -> truthy d = true.
Proof.
  intros [[a Ha] _]. destruct d as [| | | | |items]; try discriminate Ha.
  destruct items; [discriminate Ha | reflexivity].
Qed.

Lemma next_active_find (ds : list value) :
  Forall device_entry ds ->
  next_active ds = Ret (match find (fun d => truthy (field "is_active" d)) ds with
                        | Some d => d
                        | None => VNone
                        end).
Proof.
  induction 1 as [|d ds [[a Ha] _] _ IH]; simpl; [reflexivity|].
  unfold field. rewrite Ha. simpl. destruct (truthy a); [reflexivity | exact IH].
Qed.

(** X1: on a list of well-formed devices [get_active_device] asks the
    service once and returns the id of the first device marked active, the
    id of the first device when none is active, and [None] for the empty
    list. *)
Theorem active_device_choice (w : world) (h : history) (r : value) (ds : list value) :
  service w h devices = Ret r ->
  get r "devices" (VList []) = Ret (VList ds) ->
  Forall device_entry ds ->
  get_active_device w h = (Ret (chosen_device ds), h ++ [Call devices]).
Proof.
  intros Hs Hg Hwf.
  unfold get_active_device, try_except, bind at 1, sp. rewrite Hs.
  unfold bind at 1, lift at 1. rewrite Hg.
  destruct ds as [|d0 ds]; [reflexivity|].
  cbn [truthy negb]. unfold bind at 1, lift at 1. cbn [iter].
  unfold bind at 1, lift at 1. rewrite (next_active_find _ Hwf).
  unfold chosen_device.
  destruct (find (fun d => truthy (field "is_active" d)) (d0 :: ds)) as [d|] eqn:Hf.
  - apply find_some in Hf as [Hin _].
    rewrite Forall_forall in Hwf. pose proof (Hwf d Hin) as Hd.
    rewrite (device_entry_truthy d Hd). destruct Hd as [_ [i Hi]].
    unfold lift, field. now rewrite Hi.
  - cbn [truthy]. unfold lift. cbn [getitem0 bindR].
    inversion Hwf as [|? ? [_ [i Hi]] _]; subst.
    unfold field. now rewrite Hi.
Qed.

Lemma next_active_stops (pre post : list value) (d : value) (x : exn) :
  Forall device_entry pre ->
  Forall (fun p => truthy (field "is_active" p) = false) pre ->
  getitem d "is_active" = Raise x ->
  next_active (pre ++ d :: post) = Raise x.
Proof.
  intros Hwf Hin Hd. induction pre as [|p pre IH]; simpl.
  - now rewrite Hd.
  - inversion Hwf as [|? ? [[a Ha] _] Hwf']; subst.
    inversion Hin as [|? ? Hp Hin']; subst.
    unfold field in Hp. rewrite Ha in Hp. rewrite Ha. cbn [bindR]. rewrite Hp.
    now apply IH.
Qed.

(** X17: device resolution reads the list in order and gives up at the
    first entry without an "is_active" field: when only inactive devices
    stand before it, the result is [None], even if an active device follows
    in the list. *)
Theorem malformed_device_entry (w : world) (h : history) (r d : value)
  (pre post : list value) (x : exn) :
  service w h devices = Ret r ->
  get r "devices" (VList []) = Ret (VList (pre ++ d :: post)) ->
  Forall device_entry pre ->
  Forall (fun p => truthy (field "is_active" p) = false) pre ->
  getitem d "is_active" = Raise x ->
  get_active_device w h = (Ret VNone, h ++ [Call devices]).
Proof.
  intros Hs Hg Hwf Hin Hd.
  unfold get_active_device, try_except, bind at 1, sp. rewrite Hs.
  unfold bind at 1, lift at 1. rewrite Hg.
  assert (Ht : truthy (VList (pre ++ d :: post)) = true) by (destruct pre; reflexivity).
  rewrite Ht. cbn [negb]. unfold bind at 1, lift at 1. cbn [iter].
  unfold bind at 1, lift at 1.
  rewrite (next_active_stops pre post d x Hwf Hin Hd). reflexivity.
Qed.

Lemma get_active_device_one_call (w : world) (h : history) :
  exists dev, get_active_device w h = (Ret dev, h ++ [Call devices]).
Proof.
  unfold get_active_device, try_except, bind at 1, sp.
  destruct (service w h devices) as [r|e]; [|unfold ret; eauto].
  unfold bind at 1, lift at 1.
  destruct (get r "devices" (VList [])) as [devs|e]; [|unfold ret; eauto].
  destruct (negb (truthy devs)); [unfold ret; eauto|].
  unfold bind at 1, lift at 1.
  destruct (iter devs) as [ds|e]; [|unfold ret; eauto].
  unfold bind at 1, lift at 1.
  destruct (next_active ds) as [active|e]; [|unfold ret; eauto].
  unfold lift, ret.
  destruct (truthy active).
  - destruct (getitem active "id"); eauto.
  - destruct (bindR _ _); eauto.
Qed.

(** X2: in every world [ensure_device] returns the device
    [get_active_device] found, after one [devices] call and, when a device
    was found, one transfer of playback to that very device; whether the
    transfer succeeds or raises changes neither the result nor the trace. *)
Theorem ensure_device_calls (w : world) (h : history) :
  exists dev,
    get_active_device w h = (Ret dev, h ++ [Call devices]) /\
    ensure_device w h =
      (Ret dev, h ++ Call devices ::
                  (if truthy dev then [Call (transfer_playback dev)] else [])).
Proof.
  destruct (get_active_device_one_call w h) as [dev Hdev].
  exists dev. split; [exact Hdev|].
  unfold ensure_device, bind at 1. rewrite Hdev.
  destruct (truthy dev).
  - unfold bind, try_except, sp, ret.
    destruct (service w (h ++ [Call devices]) (transfer_playback dev));
      now rewrite <- app_assoc.
  - unfold bind, ret. reflexivity.
Qed.

(* ================================================================== *)
(** ** Layer 1 *)
(* ================================================================== *)


(* ================================================================== *)
(** ** Layer 2 on one playlist *)
(* ================================================================== *)

Lemma track_ids_of_all (its : list value) :
  Forall has_track its -> track_ids_of its = Ret (map track_id its).
Proof.
  induction 1 as [|t its [tr [id [uri [Ht [Htr [Hid _]]]]]] _ IH]; [reflexivity|].
  cbn [track_ids_of map]. rewrite Ht. cbn [bindR]. rewrite Htr, Hid. cbn [bindR].
  rewrite IH. cbn [bindR]. unfold track_id, field. now rewrite Ht, Hid.
Qed.

Lemma track_ids_of_none (its : list value) :
  Forall has_no_track its -> track_ids_of its = Ret [].
Proof.
  induction 1 as [|t its [tr [Ht Htr]] _ IH]; [reflexivity|].
  cbn [track_ids_of]. rewrite Ht. cbn [bindR]. now rewrite Htr.
Qed.

Lemma judged_one (target : list (string * (float * float))) (f t : value) :
  has_track t -> judgeable target f ->
  judged target (f, t) = Ret (if passes target f then [track_uri t] else []).
Proof.
  intros [tr [id [uri [Ht [_ [_ Hu]]]]]] Hf.
  unfold judged, passes, track_uri, field. rewrite Ht.
  destruct (truthy f) eqn:Hf'; [|reflexivity].
  destruct (Hf Hf') as [b ->]. cbn [bindR andb].
  destruct b; [|reflexivity]. rewrite Hu. reflexivity.
Qed.

Lemma judged_each (target : list (string * (float * float))) (its fs : list value) :
  Forall has_track its -> Forall (judgeable target) fs ->
  mapR (judged target) (combine fs its) =
    Ret (map (fun p => if passes target (fst p) then [track_uri (snd p)] else [])
             (combine fs its)).
Proof.
  intros Hits. revert fs.
  induction Hits as [|t its Ht _ IH]; intros fs Hfs.
  - destruct fs; reflexivity.
  - destruct Hfs as [|f fs Hf Hfs]; [reflexivity|].
    cbn [combine mapR map fst snd].
    rewrite (judged_one target f t Ht Hf), (IH fs Hfs). reflexivity.
Qed.

Lemma concat_kept {A B : Type} (keep : A -> bool) (f : A -> B) (l : list A) :
  concat (map (fun p => if keep p then [f p] else []) l) = map f (filter keep l).
Proof.
  induction l as [|p l IH]; [reflexivity|].
  simpl. destruct (keep p); simpl; now rewrite IH.
Qed.

(** X4: on a playlist in which every item carries a track, Layer 2 asks for
    the features of exactly the tracks of the playlist, in order, and
    appends to the queue the URIs of the items whose feature map (the one at
    the same position of the answer) is present and matches, in playlist
    order. *)
Theorem playlist_on_own_features (w : world) (target : list (string * (float * float)))
  (matched : list value) (pl pid r : value) (its fs : list value) (h : history) :
  let h1 := h ++ [Call (playlist_tracks pid 50)] in
  let ids := map track_id its in
  getitem pl "id" = Ret pid ->
  service w h (playlist_tracks pid 50) = Ret r ->
  get r "items" (VList []) = Ret (VList its) ->
  its <> [] ->
  Forall has_track its ->
  service w h1 (audio_features ids) = Ret (VList fs) ->
  Forall (judgeable target) fs ->
  match_playlist w target matched pl h =
    (Ret (matched ++ map (fun p => track_uri (snd p))
                         (filter (fun p => passes target (fst p)) (combine fs its))),
     h1 ++ [Call (audio_features ids)]).
Proof.
  intros h1 ids Hid Hs Hg Hne Hits Hf Hfs.
  unfold match_playlist, bind at 1, lift at 1. rewrite Hid.
  unfold bind at 1, sp at 1. rewrite Hs. fold h1.
  unfold bind at 1, lift at 1. rewrite Hg.
  unfold bind at 1, lift at 1. cbn [iter].
  unfold bind at 1, lift at 1. rewrite (track_ids_of_all its Hits).
  subst ids. destruct its as [|t its']; [contradiction|].
  cbn [map] in Hf |- *. unfold bind at 1, sp at 1. rewrite Hf.
  unfold bind, lift. cbn [iter].
  rewrite match_pairs_accumulates, (judged_each target _ fs Hits Hfs).
  cbn [bindR]. now rewrite (concat_kept (fun p => passes target (fst p))
                                        (fun p => track_uri (snd p))).
Qed.

(** X5: a playlist that is empty, or whose items all have a null track, is
    passed over: the queue is left as it was and no features are
    requested. *)
Theorem playlist_without_tracks (w : world) (target : list (string * (float * float)))
  (matched : list value) (pl pid r : value) (its : list value) (h : history) :
  getitem pl "id" = Ret pid ->
  service w h (playlist_tracks pid 50) = Ret r ->
  get r "items" (VList []) = Ret (VList its) ->
  Forall has_no_track its ->
  match_playlist w target matched pl h =
    (Ret matched, h ++ [Call (playlist_tracks pid 50)]).
Proof.
  intros Hid Hs Hg Hits.
  unfold match_playlist, bind at 1, lift at 1. rewrite Hid.
  unfold bind at 1, sp at 1. rewrite Hs.
  unfold bind at 1, lift at 1. rewrite Hg.
  unfold bind at 1, lift at 1. cbn [iter].
  unfold bind at 1, lift at 1. rewrite (track_ids_of_none its Hits).
  reflexivity.
Qed.

(* ================================================================== *)
(** ** The outcome of [play_for_emotion] *)
(* ================================================================== *)

Lemma multi_layered_queue_returns (w : world) (e : string) :
  returns (multi_layered_queue w e).
Proof.
  unfold multi_layered_queue.
  apply returns_or_else; [apply layer1_returns|].
  apply returns_or_else; [apply layer2_returns | apply layer3_returns].
Qed.

Lemma multi_layered_queue_emits (w : world) (e : string) :
  emits is_layer_event (multi_layered_queue w e).
Proof.
  unfold multi_layered_queue, _layer_user_recommendations, _layer_playlist_matches,
    _layer_global_recommendations, match_playlist.
  emits_steps.
Qed.

(** The two ways a run can go after device resolution. *)
Lemma play_cases (w : world) (e : string) (h : history) :
  exists dev h1,
    ensure_device w h = (Ret dev, h1) /\
    ((truthy dev = false /\
      play_for_emotion w e h = (Ret false, h1 ++ [Print NoDeviceFound])) \/
     (truthy dev = true /\
      exists q h2,
        multi_layered_queue w (lower e) h1 = (Ret q, h2) /\
        play_for_emotion w e h =
          match q with
          | [] => (Ret false, h2 ++ [Print NoTracksFound])
          | _ :: _ => playback_outcome w (lower e) dev q h2
          end)).
Proof.
  destruct (ensure_device_returns w h) as [dev [h1 Hdev]].
  exists dev, h1. split; [exact Hdev|].
  destruct (truthy dev) eqn:Ht.
  - right. split; [reflexivity|].
    destruct (multi_layered_queue_returns w (lower e) h1) as [q [h2 Hq]].
    exists q, h2. split; [exact Hq|].
    exact (play_from_queue w e h h1 h2 dev q Hdev Ht Hq).
  - left. split; [reflexivity|].
    unfold play_for_emotion, bind at 1. rewrite Hdev, Ht. reflexivity.
Qed.

Lemma device_event_not_outcome (e : event) :
  is_device_event e = true -> is_outcome_event e = false.
Proof. destruct e as [[]| |]; simpl; intros H; try discriminate; reflexivity. Qed.

Lemma layer_event_not_outcome (e : event) :
  is_layer_event e = true -> is_outcome_event e = false.
Proof. destruct e as [[]| |[]]; simpl; intros H; try discriminate; reflexivity. Qed.

(** X6: a run of [play_for_emotion] appends to the history exactly one of
    the four outcome lines, as its last event, and the line tells what
    happened.  "No device" comes after a device resolution that found none.
    "No tracks" comes after the layers returned the empty queue.  The
    now-playing report comes, with [True], after the start request for the
    resolved device and the first 50 URIs of the layers' queue was answered;
    it carries the length of the whole queue and, for an ASCII emotion, its
    upper-case form.  The failure line comes, with [False], after that same
    request raised, and carries the exception. *)
Theorem play_verdict (w : world) (e : string) (h : history) :
  exists b evs l dev h1,
    play_for_emotion w e h = (Ret b, h ++ evs ++ [Print l]) /\
    forallb (fun ev => negb (is_outcome_event ev)) evs = true /\
    is_outcome_event (Print l) = true /\
    ensure_device w h = (Ret dev, h1) /\
    match l with
    | NoDeviceFound => b = false /\ truthy dev = false /\ h ++ evs = h1
    | NoTracksFound =>
        b = false /\ truthy dev = true /\
        multi_layered_queue w (lower e) h1 = (Ret [], h ++ evs)
    | NowPlaying name n =>
        b = true /\ truthy dev = true /\
        (ascii_only e = true -> name = upper (lower e)) /\
        exists queue h2,
          multi_layered_queue w (lower e) h1 = (Ret queue, h2) /\
          queue <> [] /\ n = length queue /\
          h ++ evs = h2 ++ [Call (start_playback dev (firstn 50 queue))] /\
          exists v, service w h2 (start_playback dev (firstn 50 queue)) = Ret v
    | PlaybackFailed x =>
        b = false /\ truthy dev = true /\
        exists queue h2,
          multi_layered_queue w (lower e) h1 = (Ret queue, h2) /\
          queue <> [] /\
          h ++ evs = h2 ++ [Call (start_playback dev (firstn 50 queue))] /\
          service w h2 (start_playback dev (firstn 50 queue)) = Raise x
    | Layer1 | Layer2 | Layer3 => False
    end.
Proof.
  destruct (play_cases w e h) as [dev [h1 [Hdev [[Hf Hrun]|[Ht [q [h2 [Hq Hrun]]]]]]]];
    destruct (ensure_device_emits w _ _ _ Hdev) as [ev0 [E0 F0]];
    pose proof (forallb_disjoint _ _ _ device_event_not_outcome F0) as N0.
  - exists false, ev0, NoDeviceFound, dev, h1. subst h1.
    rewrite Hrun, <- app_assoc. now repeat split.
  - destruct (multi_layered_queue_emits w _ _ _ _ Hq) as [ev1 [E1 F1]].
    pose proof (forallb_disjoint _ _ _ layer_event_not_outcome F1) as N1.
    assert (E2 : h2 = h ++ ev0 ++ ev1) by (rewrite E1, E0; now rewrite <- app_assoc).
    destruct q as [|u q].
    + exists false, (ev0 ++ ev1), NoTracksFound, dev, h1.
      rewrite Hrun, E2, <- !app_assoc. rewrite forallb_app, N0, N1.
      repeat split; try assumption. rewrite Hq, E2. reflexivity.
    + unfold playback_outcome in Hrun.
      set (c := start_playback dev (firstn 50 (u :: q))) in *.
      destruct (service w h2 c) as [v|x] eqn:Hs.
      * exists true, (ev0 ++ ev1 ++ [Call c]),
               (NowPlaying (upper (lower e)) (length (u :: q))), dev, h1.
        rewrite Hrun, E2, <- !app_assoc. rewrite !forallb_app, N0, N1.
        repeat split; try assumption.
        exists (u :: q), h2. split; [exact Hq|]. split; [discriminate|].
        split; [reflexivity|]. split; [now rewrite E2, <- !app_assoc|].
        now exists v.
      * exists false, (ev0 ++ ev1 ++ [Call c]), (PlaybackFailed x), dev, h1.
        rewrite Hrun, E2, <- !app_assoc. rewrite !forallb_app, N0, N1.
        repeat split; try assumption.
        exists (u :: q), h2. split; [exact Hq|]. split; [discriminate|].
        split; [now rewrite E2, <- !app_assoc | exact Hs].
Qed.

Lemma no_start_among (P : event -> bool) (evs : list event) :
  (forall e, P e = true -> is_start_event e = false) ->
  forallb P evs = true -> filter is_start_event evs = [].
Proof.
  intros HP F. induction evs as [|e evs IH]; [reflexivity|].
  simpl in *. apply andb_true_iff in F as [F1 F2].
  rewrite (HP e F1). now apply IH.
Qed.

Lemma device_event_not_start (e : event) :
  is_device_event e = true -> is_start_event e = false.
Proof. destruct e as [[]| |]; simpl; intros H; try discriminate; reflexivity. Qed.

Lemma layer_event_not_start (e : event) :
  is_layer_event e = true -> is_start_event e = false.
Proof. destruct e as [[]| |[]]; simpl; intros H; try discriminate; reflexivity. Qed.

(** X7: a run of [play_for_emotion] requests the start of playback at most
    once: exactly once when it gets as far as a non-empty queue on a device
    (in particular whenever it returns [True]), and not at all when no
    device or no track was found. *)
Theorem start_requested_at_most_once (w : world) (e : string) (h : history) :
  exists evs,
    snd (play_for_emotion w e h) = h ++ evs /\
    length (filter is_start_event evs) <= 1 /\
    (fst (play_for_emotion w e h) = Ret true ->
     length (filter is_start_event evs) = 1) /\
    (In (Print NoDeviceFound) evs \/ In (Print NoTracksFound) evs ->
     filter is_start_event evs = []).
Proof.
  destruct (play_cases w e h) as [dev [h1 [Hdev [[_ Hrun]|[_ [q [h2 [Hq Hrun]]]]]]]];
    destruct (ensure_device_emits w _ _ _ Hdev) as [ev0 [-> F0]];
    pose proof (no_start_among _ _ device_event_not_start F0) as N0.
  - exists (ev0 ++ [Print NoDeviceFound]). rewrite Hrun.
    rewrite filter_app, N0. simpl.
    split; [now rewrite <- app_assoc|]. split; [lia|].
    split; [discriminate | reflexivity].
  - destruct (multi_layered_queue_emits w _ _ _ _ Hq) as [ev1 [-> F1]].
    pose proof (no_start_among _ _ layer_event_not_start F1) as N1.
    assert (Hnot : forall l, In (Print l) (ev0 ++ ev1) -> is_layer_event (Print l) = true).
    { intros l Hin. apply in_app_iff in Hin as [Hin|Hin].
      - rewrite forallb_forall in F0. specialize (F0 _ Hin). discriminate F0.
      - rewrite forallb_forall in F1. exact (F1 _ Hin). }
    destruct q as [|u q].
    + exists (ev0 ++ ev1 ++ [Print NoTracksFound]). rewrite Hrun.
      rewrite !filter_app, N0, N1. simpl.
      split; [now rewrite <- !app_assoc|]. split; [lia|].
      split; [discriminate | reflexivity].
    + unfold playback_outcome in Hrun.
      set (c := start_playback dev (firstn 50 (u :: q))) in *.
      destruct (service w ((h ++ ev0) ++ ev1) c) as [v|x]; rewrite Hrun.
      * exists (ev0 ++ ev1 ++ [Call c; Print (NowPlaying (upper (lower e)) (length (u :: q)))]).
        rewrite !filter_app, N0, N1. simpl.
        split; [now rewrite <- !app_assoc|]. split; [lia|].
        split; [reflexivity|].
        intros [Hin|Hin]; exfalso;
          rewrite app_assoc in Hin; apply in_app_iff in Hin as [Hin|Hin];
          try (apply Hnot in Hin; discriminate Hin);
          simpl in Hin; destruct Hin as [Hin|[Hin|[]]]; discriminate Hin.
      * exists (ev0 ++ ev1 ++ [Call c; Print (PlaybackFailed x)]).
        rewrite !filter_app, N0, N1. simpl.
        split; [now rewrite <- !app_assoc|]. split; [lia|].
        split; [discriminate|].
        intros [Hin|Hin]; exfalso;
          rewrite app_assoc in Hin; apply in_app_iff in Hin as [Hin|Hin];
          try (apply Hnot in Hin; discriminate Hin);
          simpl in Hin; destruct Hin as [Hin|[Hin|[]]]; discriminate Hin.
Qed.

(* ================================================================== *)
(** ** Normalisation of the emotion *)
(* ================================================================== *)

Lemma lower_ascii_idem (c : ascii) : lower_ascii (lower_ascii c) = lower_ascii c.
Proof. destruct c as [[] [] [] [] [] [] [] []]; reflexivity. Qed.

Lemma lower_upper_ascii (c : ascii) : lower_ascii (upper_ascii c) = lower_ascii c.
Proof. destruct c as [[] [] [] [] [] [] [] []]; reflexivity. Qed.

Lemma lower_idem (s : string) : lower (lower s) = lower s.
Proof.
  induction s as [|c s IH]; [reflexivity|].
  unfold lower in *. cbn [map_string]. now rewrite lower_ascii_idem, IH.
Qed.

Lemma lower_upper (s : string) : lower (upper s) = lower s.
Proof.
  induction s as [|c s IH]; [reflexivity|].
  unfold lower, upper in *. cbn [map_string]. now rewrite lower_upper_ascii, IH.
Qed.

Lemma play_for_emotion_lower (w : world) (e1 e2 : string) (h : history) :
  lower e1 = lower e2 -> play_for_emotion w e1 h = play_for_emotion w e2 h.
Proof. intros H. unfold play_for_emotion. cbv zeta. now rewrite H. Qed.

(** X8: on ASCII strings [play_for_emotion] does not look at the case of
    the letters of the emotion: two ASCII strings with the same lower-case
    form give the same run, so an ASCII emotion, its lower-case form and its
    upper-case form do. *)
Theorem play_ignores_case (w : world) (e : string) (h : history) :
  ascii_only e = true ->
  (forall e', ascii_only e' = true -> lower e' = lower e ->
              play_for_emotion w e' h = play_for_emotion w e h) /\
  play_for_emotion w (lower e) h = play_for_emotion w e h /\
  play_for_emotion w (upper e) h = play_for_emotion w e h.
Proof.
  intros _. split; [|split].
  - intros e' _ H. now apply play_for_emotion_lower.
  - apply play_for_emotion_lower, lower_idem.
  - apply play_for_emotion_lower, lower_upper.
Qed.

(* ================================================================== *)
(** ** An emotion outside the tables *)
(* ================================================================== *)

Lemma unknown_seed (w : world) (e : string) (h : history) :
  ~ In e closed_set -> layer3_seed w e h = "pop".
Proof.
  intros Hout. unfold layer3_seed.
  rewrite (proj1 (fallback_profile e Hout)).
  cbn [length]. rewrite Nat.mod_1_r. reflexivity.
Qed.

(** X9: for an emotion outside the tables Layer 3 requests recommendations
    for the genre "pop" without any target hint and, when it has to search,
    searches "genre:pop"; and the matching predicate of Layer 2 accepts
    every feature map, since there is no interval to check. *)
Theorem unknown_emotion_defaults (w : world) (e : string) (h : history) :
  ~ In e closed_set ->
  let attempt := recommendations ["pop"] None None 50 [] in
  let h1 := h ++ [Print Layer3; Random] in
  let h2 := h1 ++ [Call attempt] in
  _layer_global_recommendations w e h =
    match recommended (service w h1 attempt) with
    | Some uris => (Ret uris, h2)
    | None => (Ret (found (service w h2 (search "genre:pop" "track" 30))),
               h2 ++ [Call (search "genre:pop" "track" 30)])
    end /\
  (forall feat, _match_features feat (table_get EMOTION_TARGETS e []) = Ret true).
Proof.
  intros Hout attempt h1 h2. split.
  - rewrite layer3_run. cbv zeta. rewrite (unknown_seed w e h Hout).
    unfold layer3_request, layer3_search.
    rewrite (proj2 (proj2 (fallback_profile e Hout))). reflexivity.
  - intros feat. rewrite (proj1 (proj2 (fallback_profile e Hout))). reflexivity.
Qed.

(* ================================================================== *)
(** ** More on the emotion aggregator *)
(* ================================================================== *)

Lemma detect_returns {frame : Type} (s : sensors frame) :
  (successes s = [] /\ detect_dominant_emotion s = Ret None) \/
  (exists l, In l (successes s) /\ detect_dominant_emotion s = Ret (Some l) /\
             forall x, count x (successes s) <= count l (successes s)).
Proof.
  rewrite detect_reads_successes.
  destruct (successes s) as [|x labels] eqn:E; [now left|].
  right. destruct (most_common_mode (x :: labels)) as [l [rest [Hm [Hin [Hmax _]]]]];
    [discriminate|].
  exists l. rewrite Hm. now repeat split.
Qed.

(** X10: a label heard in more than half of the successful passes is the
    one [detect_dominant_emotion] returns. *)
Theorem majority_wins {frame : Type} (s : sensors frame) (l : string) :
  length (successes s) < 2 * count l (successes s) ->
  detect_dominant_emotion s = Ret (Some l).
Proof.
  intros Hmaj. destruct (detect_returns s) as [[E _]|[l' [_ [Hrun Hmax]]]].
  - rewrite E in Hmaj. simpl in Hmaj. lia.
  - rewrite Hrun. destruct (string_dec l' l) as [->|Hne]; [reflexivity|].
    pose proof (count_two l' l (successes s) Hne).
    pose proof (Hmax l). lia.
Qed.

Lemma majority_wins_witness :
  detect_dominant_emotion
    (recording [Heard "fear"; NoFace; Heard "angry"; Heard "fear"; NoFrame])
    = Ret (Some "fear").
Proof.
  apply (majority_wins
           (recording [Heard "fear"; NoFace; Heard "angry"; Heard "fear"; NoFrame]) "fear").
  vm_compute. lia.
Defined.

Lemma no_frame_no_label {frame : Type} (s : sensors frame) :
  (forall i, fst (get_frame s i) = false) -> successes s = [].
Proof.
  intros Hno. unfold successes.
  induction (seq 0 EMOTION_FRAMES) as [|i l IH]; [reflexivity|].
  simpl. rewrite IH. unfold label_at.
  specialize (Hno i). destruct (get_frame s i) as [ok f]. simpl in Hno.
  now rewrite Hno.
Qed.

(* ================================================================== *)
(** ** The webcam manager *)
(* ================================================================== *)

(** X11: once [release()] has run, the manager is cut off from the device:
    [get_frame()] and [read()] return [(False, None)], [is_opened()] returns
    [False], a further [release()] or the destructor changes nothing, and
    none of them touches the device again.  The release itself reaches the
    device at most once, and only if the capture object was still held. *)
Theorem camera_after_release {frame : Type} (dev : WebcamManager.capture frame)
  (m : WebcamManager.manager) (log : list WebcamManager.cam_event) :
  let m' := fst (WebcamManager.release m log) in
  let log' := snd (WebcamManager.release m log) in
  log' = log ++ (if WebcamManager.cap m then [WebcamManager.Release] else []) /\
  WebcamManager.cap m' = false /\
  WebcamManager.get_frame dev m' log' = ((false, None), log') /\
  WebcamManager.read_ dev m' log' = ((false, None), log') /\
  WebcamManager.is_opened dev m' log' = (false, log') /\
  WebcamManager.release m' log' = (m', log') /\
  WebcamManager.__del__ m' log' = (m', log').
Proof.
  intros m' log'. subst m' log'.
  unfold WebcamManager.__del__, WebcamManager.read_, WebcamManager.get_frame,
    WebcamManager.is_opened, WebcamManager.release.
  destruct (WebcamManager.cap m) eqn:Hc; cbn [fst snd WebcamManager.cap negb];
    rewrite ?Hc, ?app_nil_r; cbn [negb]; repeat split.
Qed.

(** X12: with a released camera the sampling loop gets no frame, and
    [detect_dominant_emotion] returns [None] whatever the analyzer would
    have said. *)
Theorem released_camera_detects_nothing {frame : Type}
  (dev : WebcamManager.capture frame) (m : WebcamManager.manager)
  (log : list WebcamManager.cam_event)
  (v : nat -> EmotionAnalyzer.vision frame) (backend : string) :
  let m' := fst (WebcamManager.release m log) in
  let log' := snd (WebcamManager.release m log) in
  detect_dominant_emotion (AuraInterface.wm_ea dev m' log' v backend) = Ret None.
Proof.
  intros m' log'. rewrite detect_reads_successes.
  rewrite no_frame_no_label; [reflexivity|].
  intros i. unfold AuraInterface.wm_ea, WebcamManager.get_frame. cbn [get_frame].
  subst m'. unfold WebcamManager.release.
  destruct (WebcamManager.cap m) eqn:Hc; cbn [fst WebcamManager.cap negb];
    rewrite ?Hc; reflexivity.
Qed.

(* ================================================================== *)
(** ** The emotion analyzer *)
(* ================================================================== *)

Lemma read_result_label (answer : value) (dominant : string) (c : value) :
  EmotionAnalyzer.read_result answer = Ret (Some (dominant, c)) ->
  exists s, dominant = lower s.
Proof.
  unfold EmotionAnalyzer.read_result. intros H.
  destruct (match answer with VList _ => getitem0 answer | _ => Ret answer end)
    as [result|x]; [|discriminate H].
  cbn [bindR] in H.
  destruct (contains result "dominant_emotion") as [[|]|x]; try discriminate H.
  cbn [bindR negb] in H.
  destruct (getitem result "dominant_emotion") as [d|x]; [|discriminate H].
  cbn [bindR] in H.
  destruct d as [| | |s| |]; try discriminate H.
  cbn [EmotionAnalyzer.str_lower bindR] in H.
  destruct (get result "emotion" (VDict [])) as [scores|x]; [|discriminate H].
  cbn [bindR] in H.
  destruct (get scores _ VNone) as [c1|x]; [|discriminate H].
  cbn [bindR] in H.
  destruct (truthy c1).
  - cbn [bindR] in H. injection H as <- _. now exists s.
  - destruct (get scores (lower s) VNone) as [c2|x]; [|discriminate H].
    cbn [bindR] in H. injection H as <- _. now exists s.
Qed.

Lemma analysed_lower {frame : Type} (v : EmotionAnalyzer.vision frame)
  (backend : string) (f : option frame) (a : analysis) :
  EmotionAnalyzer.analyze v backend f = EmotionAnalyzer.Analysed a ->
  lower (emotion a) = emotion a.
Proof.
  unfold EmotionAnalyzer.analyze. intros H.
  destruct f as [f|]; [|discriminate H].
  destruct (bindR _ _) as [[[dominant c]|]|x] eqn:E; try discriminate H.
  destruct (EmotionAnalyzer.to_float v c); [|discriminate H].
  injection H as <-. cbn [emotion].
  destruct (EmotionAnalyzer.cvtColor v f) as [rgb|x]; [|discriminate E].
  cbn [bindR] in E.
  destruct (EmotionAnalyzer.DeepFace_analyze v backend rgb) as [answer|x];
    [|discriminate E].
  cbn [bindR] in E.
  destruct (read_result_label answer dominant c E) as [s ->].
  apply lower_idem.
Qed.

Lemma read_result_dict (d : list (string * value)) (s : string) :
  lookup "dominant_emotion" d = Some (VStr s) ->
  EmotionAnalyzer.read_result (VDict d) =
    (emotion_scores <- get (VDict d) "emotion" (VDict []) ;;
     c1 <- get emotion_scores (EmotionAnalyzer.capitalize (lower s)) VNone ;;
     confidence <- (if truthy c1 then Ret c1
                    else c2 <- get emotion_scores (lower s) VNone ;;
                         Ret (if truthy c2 then c2 else VNum 0%float)) ;;
     Ret (Some (lower s, confidence)))%result.
Proof.
  intros Hd. unfold EmotionAnalyzer.read_result.
  cbn [bindR contains getitem]. rewrite Hd. reflexivity.
Qed.

(** X13: when DeepFace answers with a dict, bare or as the first element of
    a list, whose "dominant_emotion" is an ASCII string, [analyze] reports
    that label in lower case.  The confidence is [float] of the first true value
    among the score stored under the capitalised label and the score stored
    under the lower-case label, and of 0 when neither is there or both are
    zero (an answer without "emotion" entry has no scores); when [float]
    raises on that value the analysis fails.  So a non-zero number under the
    capitalised label wins over the one under the lower-case label. *)
Theorem analyze_reads_answer {frame : Type} (v : EmotionAnalyzer.vision frame)
  (backend : string) (f rgb : frame) (answer : value)
  (d scores : list (string * value)) (s : string) :
  EmotionAnalyzer.cvtColor v f = Ret rgb ->
  EmotionAnalyzer.DeepFace_analyze v backend rgb = Ret answer ->
  answer = VDict d \/ (exists rest, answer = VList (VDict d :: rest)) ->
  lookup "dominant_emotion" d = Some (VStr s) ->
  ascii_only s = true ->
  (lookup "emotion" d = None /\ scores = []) \/
  lookup "emotion" d = Some (VDict scores) ->
  let c1 := field (EmotionAnalyzer.capitalize (lower s)) (VDict scores) in
  let c2 := field (lower s) (VDict scores) in
  let chosen := if truthy c1 then c1 else if truthy c2 then c2 else VNum 0%float in
  EmotionAnalyzer.analyze v backend (Some f) =
    match EmotionAnalyzer.to_float v chosen with
    | Some x => EmotionAnalyzer.Analysed {| emotion := lower s; confidence := x |}
    | None => EmotionAnalyzer.Failed
    end /\
  (forall x, c1 = VNum x -> truthy c1 = true ->
     EmotionAnalyzer.analyze v backend (Some f) =
       EmotionAnalyzer.Analysed {| emotion := lower s; confidence := x |}) /\
  (forall x, truthy c1 = false -> c2 = VNum x -> truthy c2 = true ->
     EmotionAnalyzer.analyze v backend (Some f) =
       EmotionAnalyzer.Analysed {| emotion := lower s; confidence := x |}) /\
  (truthy c1 = false -> truthy c2 = false ->
     EmotionAnalyzer.analyze v backend (Some f) =
       EmotionAnalyzer.Analysed {| emotion := lower s; confidence := 0%float |}).
Proof.
  intros Hc Hd Hshape Hlabel _ Hscores c1 c2 chosen.
  assert (Hread : EmotionAnalyzer.read_result answer =
                  EmotionAnalyzer.read_result (VDict d)).
  { destruct Hshape as [->|[rest ->]]; reflexivity. }
  assert (Hget : get (VDict d) "emotion" (VDict []) = Ret (VDict scores)).
  { cbn [get]. destruct Hscores as [[-> ->]| ->]; reflexivity. }
  assert (Hg1 : get (VDict scores) (EmotionAnalyzer.capitalize (lower s)) VNone = Ret c1).
  { unfold c1, field. cbn [get getitem]. now destruct (lookup _ scores). }
  assert (Hg2 : get (VDict scores) (lower s) VNone = Ret c2).
  { unfold c2, field. cbn [get getitem]. now destruct (lookup _ scores). }
  assert (Hrun : EmotionAnalyzer.analyze v backend (Some f) =
            match EmotionAnalyzer.to_float v chosen with
            | Some x => EmotionAnalyzer.Analysed {| emotion := lower s; confidence := x |}
            | None => EmotionAnalyzer.Failed
            end).
  { unfold EmotionAnalyzer.analyze. rewrite Hc. cbn [bindR]. rewrite Hd. cbn [bindR].
    rewrite Hread, (read_result_dict d s Hlabel), Hget. cbn [bindR].
    rewrite Hg1. cbn [bindR]. unfold chosen.
    destruct (truthy c1); cbn [bindR]; [reflexivity|].
    rewrite Hg2. cbn [bindR]. reflexivity. }
  split; [exact Hrun|]. split; [|split].
  - intros x E1 T1. rewrite Hrun. unfold chosen. rewrite T1, E1. reflexivity.
  - intros x T1 E2 T2. rewrite Hrun. unfold chosen. rewrite T1, T2, E2. reflexivity.
  - intros T1 T2. rewrite Hrun. unfold chosen. rewrite T1, T2. reflexivity.
Qed.

Lemma successes_in {frame : Type} (s : sensors frame) (l : string) :
  In l (successes s) -> exists i, label_at s i = Some l.
Proof.
  unfold successes. intros Hin. apply in_flat_map in Hin as [i [_ Hi]].
  exists i. destruct (label_at s i) as [l'|]; [|contradiction].
  destruct Hi as [->|[]]. reflexivity.
Qed.

(** X14: whatever the camera and the libraries behind the analyzer do, a
    label that [detect_dominant_emotion] returns from them is in lower case:
    the normalisation at the head of [play_for_emotion] leaves it as it
    is. *)
Theorem detected_label_lower_case {frame : Type}
  (dev : WebcamManager.capture frame) (m : WebcamManager.manager)
  (log : list WebcamManager.cam_event)
  (v : nat -> EmotionAnalyzer.vision frame) (backend : string) (l : string) :
  detect_dominant_emotion (AuraInterface.wm_ea dev m log v backend) = Ret (Some l) ->
  lower l = l.
Proof.
  intros Hrun.
  destruct (detect_returns (AuraInterface.wm_ea dev m log v backend))
    as [[_ E]|[l' [Hin [E _]]]]; rewrite E in Hrun; [discriminate Hrun|].
  injection Hrun as ->.
  destruct (successes_in _ _ Hin) as [i Hi].
  unfold label_at in Hi.
  destruct (get_frame (AuraInterface.wm_ea dev m log v backend) i) as [ok f].
  destruct ok; [|discriminate Hi].
  cbn [analyze AuraInterface.wm_ea] in Hi.
  destruct (EmotionAnalyzer.analyze (v i) backend f) as [a| |] eqn:Ha;
    try discriminate Hi.
  cbn [EmotionAnalyzer.returned option_map] in Hi. injection Hi as <-.
  exact (analysed_lower (v i) backend f a Ha).
Qed.

(* ================================================================== *)
(** ** The window's buttons *)
(* ================================================================== *)


(* ================================================================== *)
(** ** The Next button *)
(* ================================================================== *)

Lemma detect_never_raises {frame : Type} (s : sensors frame) :
  exists o, detect_dominant_emotion s = Ret o.
Proof.
  destruct (detect_returns s) as [[_ E]|[l [_ [E _]]]]; rewrite E; eauto.
Qed.

(** X15: the handler of the Next button never raises.  When a non-empty
    label is detected it becomes the current emotion and the player runs
    [play_for_emotion] on it.  When nothing is detected (or the label is the
    empty string) the current emotion is kept and the only thing asked of
    the service is one [next_track]: if it is answered the window prints
    its two lines and no error, if it raises the window prints the error
    after them and goes on. *)
Theorem next_button {frame : Type} (s : sensors frame) (w : world)
  (current : string) (h : history) :
  (exists current' lines h',
     AuraInterface.next_track_emotion s w current h = ((Ret tt, current', lines), h')) /\
  (forall l,
     detect_dominant_emotion s = Ret (Some l) -> l <> "" ->
     AuraInterface.next_track_emotion s w current h =
       ((Ret tt, l, [AuraInterface.NextPressed; AuraInterface.Detected l]),
        snd (play_for_emotion w l h))) /\
  (detect_dominant_emotion s = Ret None \/ detect_dominant_emotion s = Ret (Some "") ->
     AuraInterface.next_track_emotion s w current h =
       ((Ret tt, current,
         [AuraInterface.NextPressed; AuraInterface.NoFaceDetected] ++
         match service w h next_track with
         | Ret _ => []
         | Raise x => [AuraInterface.NextTrackError x]
         end),
        h ++ [Call next_track])).
Proof.
  assert (Hplay : forall c rest,
            detect_dominant_emotion s = Ret (Some (String c rest)) ->
            AuraInterface.next_track_emotion s w current h =
              ((Ret tt, String c rest,
                [AuraInterface.NextPressed; AuraInterface.Detected (String c rest)]),
               snd (play_for_emotion w (String c rest) h))).
  { intros c rest E. unfold AuraInterface.next_track_emotion. rewrite E.
    destruct (play_for_emotion_returns w (String c rest) h) as [b [h' Hrun]].
    now rewrite Hrun. }
  assert (Hskip : detect_dominant_emotion s = Ret None \/
                  detect_dominant_emotion s = Ret (Some "") ->
     AuraInterface.next_track_emotion s w current h =
       ((Ret tt, current,
         [AuraInterface.NextPressed; AuraInterface.NoFaceDetected] ++
         match service w h next_track with
         | Ret _ => []
         | Raise x => [AuraInterface.NextTrackError x]
         end),
        h ++ [Call next_track])).
  { intros Hd. unfold AuraInterface.next_track_emotion, sp.
    destruct Hd as [-> | ->]; destruct (service w h next_track); reflexivity. }
  split; [|split].
  - destruct (detect_never_raises s) as [[[|c rest]|] E].
    + rewrite (Hskip (or_intror E)). eauto.
    + rewrite (Hplay c rest E). eauto.
    + rewrite (Hskip (or_introl E)). eauto.
  - intros l E Hne. destruct l as [|c rest]; [contradiction|].
    exact (Hplay c rest E).
  - exact Hskip.
Qed.

(* ================================================================== *)
(** ** The Play / Pause button *)
(* ================================================================== *)


(* ================================================================== *)
(** ** The further statements at concrete worlds *)
(* ================================================================== *)

Lemma active_device_choice_witness :
  get_active_device (listening 3) [] = (Ret (VStr "laptop"), [Call devices]).
Proof.
  apply (active_device_choice (listening 3) []
           (VDict [("devices",
              VList [VDict [("id", VStr "phone"); ("is_active", VBool false)];
                     VDict [("id", VStr "laptop"); ("is_active", VBool true)]])])
           [VDict [("id", VStr "phone"); ("is_active", VBool false)];
            VDict [("id", VStr "laptop"); ("is_active", VBool true)]]).
  - reflexivity.
  - reflexivity.
  - repeat constructor; eexists; reflexivity.
Defined.


Lemma playlist_on_own_features_witness :
  match_playlist (library [item "A"; item "B"]) (table_get EMOTION_TARGETS "happy" [])
    [] (VDict [("id", VStr "pl1")]) [] =
    (Ret [VStr "spotify:track:B"],
     [Call (playlist_tracks (VStr "pl1") 50); Call (audio_features [VStr "A"; VStr "B"])]).
Proof.
  apply (playlist_on_own_features (library [item "A"; item "B"])
           (table_get EMOTION_TARGETS "happy" []) [] (VDict [("id", VStr "pl1")])
           (VStr "pl1") (VDict [("items", VList [item "A"; item "B"])])
           [item "A"; item "B"]
           [features_for (VStr "A"); features_for (VStr "B")] []).
  - reflexivity.
  - reflexivity.
  - reflexivity.
  - discriminate.
  - repeat constructor; do 3 eexists; repeat split; reflexivity.
  - reflexivity.
  - repeat constructor; intros _; eexists; vm_compute; reflexivity.
Defined.

Lemma playlist_without_tracks_witness :
  match_playlist (library [null_item; null_item]) (table_get EMOTION_TARGETS "sad" [])
    [VStr "spotify:track:Z"] (VDict [("id", VStr "pl1")]) [] =
    (Ret [VStr "spotify:track:Z"], [Call (playlist_tracks (VStr "pl1") 50)]).
Proof.
  apply (playlist_without_tracks (library [null_item; null_item])
           (table_get EMOTION_TARGETS "sad" []) [VStr "spotify:track:Z"]
           (VDict [("id", VStr "pl1")]) (VStr "pl1")
           (VDict [("items", VList [null_item; null_item])]) [null_item; null_item] []).
  - reflexivity.
  - reflexivity.
  - reflexivity.
  - repeat constructor; eexists; split; reflexivity.
Defined.

Lemma play_verdict_witness :
  ascii_only "Happy" = true /\
  exists b evs l,
    play_for_emotion (listening 3) "Happy" [] = (Ret b, [] ++ evs ++ [Print l]) /\
    forallb (fun ev => negb (is_outcome_event ev)) evs = true /\
    is_outcome_event (Print l) = true /\
    (forall name n, l = NowPlaying name n -> name = upper (lower "Happy")).
Proof.
  assert (Ha : ascii_only "Happy" = true) by reflexivity.
  split; [exact Ha|].
  destruct (play_verdict (listening 3) "Happy" [])
    as [b [evs [l [dev [h1 [Hrun [Hno [Hout [_ Hl]]]]]]]]].
  exists b, evs, l. split; [exact Hrun|]. split; [exact Hno|]. split; [exact Hout|].
  intros name n E. rewrite E in Hl.
  destruct Hl as [_ [_ [Hname _]]]. exact (Hname Ha).
Defined.

Lemma start_requested_at_most_once_witness :
  fst (play_for_emotion (listening 3) "happy" []) = Ret true /\
  exists evs, snd (play_for_emotion (listening 3) "happy" []) = [] ++ evs /\
              length (filter is_start_event evs) = 1.
Proof.
  assert (Htrue : fst (play_for_emotion (listening 3) "happy" []) = Ret true)
    by (vm_compute; reflexivity).
  split; [exact Htrue|].
  destruct (start_requested_at_most_once (listening 3) "happy" [])
    as [evs [Hevs [_ [Hone _]]]].
  exists evs. split; [exact Hevs | exact (Hone Htrue)].
Defined.

Lemma play_ignores_case_witness :
  ascii_only "HAPPY" = true /\ ascii_only "hApPy" = true /\
  lower "hApPy" = lower "HAPPY" /\
  play_for_emotion (listening 3) "hApPy" [] = play_for_emotion (listening 3) "HAPPY" [] /\
  play_for_emotion (listening 3) (upper "HAPPY") [] =
    play_for_emotion (listening 3) "HAPPY" [].
Proof.
  assert (Ha : ascii_only "HAPPY" = true) by reflexivity.
  assert (Ha' : ascii_only "hApPy" = true) by reflexivity.
  assert (H : lower "hApPy" = lower "HAPPY") by reflexivity.
  split; [exact Ha|]. split; [exact Ha'|]. split; [exact H|]. split.
  - exact (proj1 (play_ignores_case (listening 3) "HAPPY" [] Ha) "hApPy" Ha' H).
  - exact (proj2 (proj2 (play_ignores_case (listening 3) "HAPPY" [] Ha))).
Defined.

Lemma unknown_emotion_defaults_witness :
  ~ In "bored" closed_set /\
  _layer_global_recommendations search_only "bored" [] =
    (Ret [VStr "spotify:track:0"; VStr "spotify:track:1"; VStr "spotify:track:2"],
     [Print Layer3; Random; Call (recommendations ["pop"] None None 50 []);
      Call (search "genre:pop" "track" 30)]).
Proof.
  assert (Hout : ~ In "bored" closed_set).
  { simpl. intros H. repeat (destruct H as [H|H]; [discriminate H|]). exact H. }
  split; [exact Hout|].
  exact (proj1 (unknown_emotion_defaults search_only "bored" [] Hout)).
Defined.

Lemma analyze_reads_answer_witness :
  let scores := [("Fear", VNum 61.5); ("fear", VNum 4.25)] in
  let d := [("dominant_emotion", VStr "FEAR"); ("emotion", VDict scores)] in
  let v := {| EmotionAnalyzer.cvtColor := fun f : nat => Ret f;
              EmotionAnalyzer.DeepFace_analyze := fun _ _ => Ret (VList [VDict d]);
              EmotionAnalyzer.float_of_str := fun _ => None |} in
  field (EmotionAnalyzer.capitalize (lower "FEAR")) (VDict scores) = VNum 61.5 /\
  EmotionAnalyzer.analyze v "opencv" (Some 7) =
    EmotionAnalyzer.Analysed {| emotion := "fear"; confidence := 61.5%float |} /\
  EmotionAnalyzer.analyze (Studio.faces 1) "opencv" (Some 7) =
    EmotionAnalyzer.Analysed {| emotion := "sad"; confidence := 4.25%float |}.
Proof.
  intros scores d v. split; [reflexivity|]. split.
  - exact (proj1 (proj2 (analyze_reads_answer v "opencv" 7 7 (VList [VDict d]) d scores
             "FEAR" eq_refl eq_refl (or_intror (ex_intro _ [] eq_refl)) eq_refl
             eq_refl (or_intror eq_refl)))
           61.5%float eq_refl eq_refl).
  - exact (proj1 (proj2 (proj2 (analyze_reads_answer (Studio.faces 1) "opencv" 7 7
             (VList [VDict [("dominant_emotion", VStr "Sad");
                            ("emotion", VDict [("happy", VNum 93.5); ("sad", VNum 4.25)])]])
             [("dominant_emotion", VStr "Sad");
              ("emotion", VDict [("happy", VNum 93.5); ("sad", VNum 4.25)])]
             [("happy", VNum 93.5); ("sad", VNum 4.25)]
             "Sad" eq_refl eq_refl (or_intror (ex_intro _ [] eq_refl)) eq_refl
             eq_refl (or_intror eq_refl))))
           4.25%float eq_refl eq_refl eq_refl).
Defined.

Lemma detected_label_lower_case_witness :
  detect_dominant_emotion
    (AuraInterface.wm_ea Studio.camera Studio.manager [] Studio.faces "opencv")
    = Ret (Some "happy") /\
  lower "happy" = "happy".
Proof.
  assert (H : detect_dominant_emotion
                (AuraInterface.wm_ea Studio.camera Studio.manager [] Studio.faces "opencv")
              = Ret (Some "happy")) by (vm_compute; reflexivity).
  split; [exact H|].
  exact (detected_label_lower_case Studio.camera Studio.manager [] Studio.faces
           "opencv" "happy" H).
Defined.

Lemma next_button_witness :
  detect_dominant_emotion (recording [NoFrame; NoFace; NoFrame; NoFace; NoFace]) = Ret None /\
  AuraInterface.next_track_emotion
    (recording [NoFrame; NoFace; NoFrame; NoFace; NoFace]) offline "sad" [] =
    ((Ret tt, "sad",
      [AuraInterface.NextPressed; AuraInterface.NoFaceDetected;
       AuraInterface.NextTrackError (ServiceError 503)]), [Call next_track]) /\
  AuraInterface.next_track_emotion
    (recording [NoFrame; NoFace; NoFrame; NoFace; NoFace])
    {| service := fun _ _ => Ret VNone; randbelow := fun _ _ => 0 |} "sad" [] =
    ((Ret tt, "sad", [AuraInterface.NextPressed; AuraInterface.NoFaceDetected]),
     [Call next_track]) /\
  AuraInterface.next_track_emotion
    (recording [Heard "happy"; NoFace; NoFrame; NoFace; NoFace]) offline "sad" [] =
    ((Ret tt, "happy", [AuraInterface.NextPressed; AuraInterface.Detected "happy"]),
     [Call devices; Print NoDeviceFound]).
Proof.
  assert (H : detect_dominant_emotion
                (recording [NoFrame; NoFace; NoFrame; NoFace; NoFace]) = Ret None)
    by reflexivity.
  split; [exact H|]. split; [|split].
  - exact (proj2 (proj2 (next_button
             (recording [NoFrame; NoFace; NoFrame; NoFace; NoFace]) offline "sad" []))
             (or_introl H)).
  - exact (proj2 (proj2 (next_button
             (recording [NoFrame; NoFace; NoFrame; NoFace; NoFace])
             {| service := fun _ _ => Ret VNone; randbelow := fun _ _ => 0 |} "sad" []))
             (or_introl H)).
  - assert (Hd : detect_dominant_emotion
                   (recording [Heard "happy"; NoFace; NoFrame; NoFace; NoFace])
                 = Ret (Some "happy")) by reflexivity.
    assert (Hne : "happy" <> "") by discriminate.
    exact (proj1 (proj2 (next_button
             (recording [Heard "happy"; NoFace; NoFrame; NoFace; NoFace]) offline "sad" []))
             "happy" Hd Hne).
Defined.


Lemma malformed_device_entry_witness :
  let broken := {| service := fun _ c =>
                     match c with
                     | devices =>
                         Ret (VDict [("devices",
                                VList [VDict [("id", VStr "tv"); ("is_active", VBool false)];
                                       VDict [("id", VStr "watch")];
                                       VDict [("id", VStr "laptop"); ("is_active", VBool true)]])])
                     | _ => Raise (ServiceError 404)
                     end;
                   randbelow := fun _ _ => 0 |} in
  get_active_device broken [] = (Ret VNone, [Call devices]).
Proof.
  intros broken.
  apply (malformed_device_entry broken []
           (VDict [("devices",
              VList [VDict [("id", VStr "tv"); ("is_active", VBool false)];
                     VDict [("id", VStr "watch")];
                     VDict [("id", VStr "laptop"); ("is_active", VBool true)]])])
           (VDict [("id", VStr "watch")])
           [VDict [("id", VStr "tv"); ("is_active", VBool false)]]
           [VDict [("id", VStr "laptop"); ("is_active", VBool true)]] KeyError).
  - reflexivity.
  - reflexivity.
  - repeat constructor; eexists; reflexivity.
  - repeat constructor.
  - reflexivity.
Defined.
